(** * Receipt scanner: session lifecycle and batch upload

    A shallow embedding of the two stateful parts of the application:

    - [app/_layout.tsx]: [AuthProvider] (restore of the stored token, the
      token-exchange effect, [signIn], [signOut]) and [AuthGate] (the one-shot
      automatic sign-in);
    - [app/(tabs)/index.tsx]: [handleUploadAll], the sequential upload of the
      selected images.

    React state cells become fields of a world record, [async] functions
    become computations in a small state-and-exception monad, and every call
    that leaves the program (secure store, network, console) is appended to a
    trace.  What the outside answers is given by an oracle record. *)

From Stdlib Require Import String Ascii List Bool Arith Lia DecimalString.
From stdpp Require Import base strings list gmap.

Local Open Scope string_scope.

(** ** JavaScript values and operators *)

Module JS.

(** The exceptions the modelled calls can raise. *)
Inductive exn :=
| StorageError    (* a SecureStore promise rejected *)
| NetworkError    (* fetch rejected: no response received *)
| ExchangeError   (* exchangeCodeAsync rejected *)
| SyntaxError     (* Response.json() on a body that is not JSON *)
| TypeError       (* property read on null *)
| PromptError.    (* promptAsync rejected *)

(** [if (s)] on a [string | null | undefined]: the branch is taken for a
    present, non-empty string, and the string is then available. *)
Definition truthy (s : option string) : option string :=
  match s with
  | Some t => if String.eqb t "" then None else Some t
  | None => None
  end.

(** [a ?? d] *)
Definition nullish (a : option string) (d : string) : string :=
  match a with Some t => t | None => d end.

(** [a || d] *)
Definition or_else (a : option string) (d : string) : string :=
  match truthy a with Some t => t | None => d end.

(** [!x] for an object-or-null. *)
Definition not {A} (x : option A) : bool :=
  match x with Some _ => false | None => true end.

(** [s.split(sep)] for a one-character separator. *)
Fixpoint split (sep : ascii) (s : string) : list string :=
  match s with
  | EmptyString => [EmptyString]
  | String c rest =>
      if Ascii.eqb c sep then EmptyString :: split sep rest
      else match split sep rest with
           | hd :: tl => String c hd :: tl
           | [] => [String c EmptyString]
           end
  end.

(** [a.pop()]: the last element, [undefined] on an empty array. *)
Definition pop (a : list string) : option string := last a.

(** Template-literal rendering of a number. *)
Definition show (n : nat) : string := NilEmpty.string_of_uint (Nat.to_uint n).

End JS.

(** ** Computations: state, trace and exceptions *)

Inductive outcome (A : Type) :=
| Ret (a : A)
| Throw (e : JS.exn).
Arguments Ret {A} a.
Arguments Throw {A} e.

Definition Eff (W A : Type) : Type := W -> outcome A * W.

Section EffOps.
Context {W : Type}.

Definition ret {A} (a : A) : Eff W A := fun w => (Ret a, w).

Definition bind {A B} (c : Eff W A) (k : A -> Eff W B) : Eff W B :=
  fun w => match c w with
           | (Ret a, w') => k a w'
           | (Throw e, w') => (Throw e, w')
           end.

Definition throw {A} (e : JS.exn) : Eff W A := fun w => (Throw e, w).

Definition get : Eff W W := fun w => (Ret w, w).

Definition modify (f : W -> W) : Eff W unit := fun w => (Ret tt, f w).

(** [try { c } catch (e) { h e }] *)
Definition try_catch {A} (c : Eff W A) (h : JS.exn -> Eff W A) : Eff W A :=
  fun w => match c w with
           | (Ret a, w') => (Ret a, w')
           | (Throw e, w') => h e w'
           end.

(** [try { c } finally { f }] *)
Definition try_finally {A} (c : Eff W A) (f : Eff W unit) : Eff W A :=
  fun w => match c w with
           | (r, w') => match f w' with
                        | (Ret _, w'') => (r, w'')
                        | (Throw e, w'') => (Throw e, w'')
                        end
           end.

(** Awaiting a promise whose settlement the oracle gives. *)
Definition settle {A} (r : outcome A) : Eff W A := fun w => (r, w).

End EffOps.

Declare Scope eff_scope.
Delimit Scope eff_scope with eff.
Notation "x <- c ;; k" := (bind c (fun x => k))
  (at level 100, c at next level, right associativity) : eff_scope.
Notation "c ;; k" := (bind c (fun _ => k))
  (at level 100, right associativity) : eff_scope.
Local Open Scope eff_scope.

(** The world a computation ends in, and whether it ended normally. *)
Definition exec {W A} (c : Eff W A) (w : W) : W := snd (c w).
Definition result {W A} (c : Eff W A) (w : W) : outcome A := fst (c w).

Definition returns {A} (r : outcome A) : bool :=
  match r with Ret _ => true | Throw _ => false end.

(** ** fetch *)

Module Http.

(** A parsed JSON body as far as the code looks into it. *)
Inductive json :=
| JNull
| JObject (fields : gmap string string).

(** A [fetch] response; [body = None] is a body [json()] cannot parse. *)
Record Response := {
  status : nat;
  body : option json
}.

(** [response.ok]: the status is in the range 200-299. *)
Definition ok (r : Response) : bool :=
  (200 <=? status r)%nat && (status r <=? 299)%nat.

End Http.

(** ** app/_layout.tsx *)

Module Layout.
Import Http.

(** [process.env.EXPO_PUBLIC_TENANT_ID] and [process.env.EXPO_PUBLIC_CLIENT_ID]. *)
Record Config := {
  TENANT_ID : option string;
  CLIENT_ID : option string
}.

Record AuthState := {
  accessToken : string;
  displayName : option string;
  givenName : option string;
  surname : option string
}.

Record TokenResponse := { tr_accessToken : option string }.

Record DiscoveryDocument := {
  authorizationEndpoint : string;
  tokenEndpoint : string
}.

Record AuthRequest := { codeVerifier : option string }.

(** [response.type] of [useAuthRequest], with [params.code] on success. *)
Inductive AuthSessionResult :=
| Success (code : string)
| Error
| Cancel
| Dismiss
| Locked
| Opened.

(** Calls that leave the program. *)
Inductive event :=
| GetItem (key : string)
| SetItem (key value : string)
| DeleteItem (key : string)
| AutoDiscovery (issuer : string)
| UseAuthRequest (clientId : string) (scopes : list string) (redirectUri : string)
| ExchangeCode (clientId code redirectUri code_verifier : string)
| Fetch (url authorization : string)
| PromptAsync
| ConsoleLog (args : list (option string))
| ConsoleWarn (msg : string) (e : option JS.exn).

(** Events that reach the network. *)
Definition is_network (ev : event) : bool :=
  match ev with
  | AutoDiscovery _ | ExchangeCode _ _ _ _ | Fetch _ _ | PromptAsync => true
  | _ => false
  end.

(** How the platform and the network answer during one operation. *)
Record Oracle := {
  getItem_rejects : bool;
  setItem_rejects : bool;
  deleteItem_rejects : bool;
  prompt_rejects : bool;
  exchange_result : outcome TokenResponse;
  me_result : outcome Response
}.

(** The state cells of [AuthProvider] and [AuthGate], the secure store and
    the trace. *)
Record World := {
  authState : option AuthState;
  loading : bool;
  autoStarted : bool;
  secureStore : gmap string string;
  trace : list event
}.

Definition initial (store : gmap string string) : World :=
  {| authState := None; loading := true; autoStarted := false;
     secureStore := store; trace := [] |}.

Definition emit (ev : event) : Eff World unit :=
  modify (fun w =>
    {| authState := authState w; loading := loading w;
       autoStarted := autoStarted w; secureStore := secureStore w;
       trace := trace w ++ [ev] |}).

Definition setAuthState (a : option AuthState) : Eff World unit :=
  modify (fun w =>
    {| authState := a; loading := loading w;
       autoStarted := autoStarted w; secureStore := secureStore w;
       trace := trace w |}).

Definition setLoading (b : bool) : Eff World unit :=
  modify (fun w =>
    {| authState := authState w; loading := b;
       autoStarted := autoStarted w; secureStore := secureStore w;
       trace := trace w |}).

Definition setAutoStarted (b : bool) : Eff World unit :=
  modify (fun w =>
    {| authState := authState w; loading := loading w;
       autoStarted := b; secureStore := secureStore w;
       trace := trace w |}).

Definition setStore (f : gmap string string -> gmap string string) : Eff World unit :=
  modify (fun w =>
    {| authState := authState w; loading := loading w;
       autoStarted := autoStarted w; secureStore := f (secureStore w);
       trace := trace w |}).

Definition console_warn (msg : string) (e : option JS.exn) : Eff World unit :=
  emit (ConsoleWarn msg e).

(** *** expo-secure-store *)

Definition getItemAsync (o : Oracle) (key : string) : Eff World (option string) :=
  emit (GetItem key) ;;
  if getItem_rejects o then throw JS.StorageError
  else w <- get ;; ret (secureStore w !! key).

Definition setItemAsync (o : Oracle) (key value : string) : Eff World unit :=
  emit (SetItem key value) ;;
  if setItem_rejects o then throw JS.StorageError
  else setStore (insert key value).

Definition deleteItemAsync (o : Oracle) (key : string) : Eff World unit :=
  emit (DeleteItem key) ;;
  if deleteItem_rejects o then throw JS.StorageError
  else setStore (delete key).

(** *** Network collaborators *)

Definition exchangeCodeAsync (o : Oracle)
    (clientId code redirectUri code_verifier : string)
    (discovery : DiscoveryDocument) : Eff World TokenResponse :=
  emit (ExchangeCode clientId code redirectUri code_verifier) ;;
  settle (exchange_result o).

Definition fetch (o : Oracle) (url authorization : string) : Eff World Response :=
  emit (Fetch url authorization) ;;
  settle (me_result o).

(** [await res.json()] *)
Definition json_of (res : Response) : Eff World json :=
  match body res with
  | Some j => ret j
  | None => throw JS.SyntaxError
  end.

(** [profile.name]: [undefined] for a missing field, a [TypeError] on null. *)
Definition prop (j : json) (name : string) : Eff World (option string) :=
  match j with
  | JNull => throw JS.TypeError
  | JObject fields => ret (fields !! name)
  end.

(** *** AuthProvider *)

Definition scopes : list string :=
  ["openid"; "profile"; "email"; "offline_access"; "User.Read"].

Definition issuer (cfg : Config) : string :=
  match JS.truthy (TENANT_ID cfg) with
  | Some t => "https://login.microsoftonline.com/" +:+ t +:+ "/v2.0"
  | None => "undefined"
  end.

Definition clientId (cfg : Config) : string := JS.nullish (CLIENT_ID cfg) "".

(** Load token on startup. *)
Definition loadToken (o : Oracle) : Eff World unit :=
  try_finally
    (try_catch
       (storedToken <- getItemAsync o "accessToken" ;;
        match JS.truthy storedToken with
        | Some t =>
            setAuthState (Some {| accessToken := t; displayName := None;
                                  givenName := None; surname := None |})
        | None => ret tt
        end)
       (fun e => console_warn "[Auth] Error loading token:" (Some e)))
    (setLoading false).

(** The hooks the body of [AuthProvider] calls on a render:
    [useAutoDiscovery], the redirect log, [useAuthRequest]. *)
Definition renderHooks (cfg : Config) (redirectUri : string) : Eff World unit :=
  emit (AutoDiscovery (issuer cfg)) ;;
  emit (ConsoleLog [Some "Redirect URI used by app:"; Some redirectUri]) ;;
  emit (UseAuthRequest (clientId cfg) scopes redirectUri).

(** Handle Microsoft response. *)
Definition handleResponse (cfg : Config) (o : Oracle)
    (response : option AuthSessionResult)
    (discovery : option DiscoveryDocument)
    (redirectUri : string)
    (request : option AuthRequest) : Eff World unit :=
  match response with
  | Some (Success code) =>
      match discovery with
      | None => ret tt
      | Some d =>
          try_catch
            (tokenResult <-
               exchangeCodeAsync o (clientId cfg) code redirectUri
                 (JS.or_else (request ≫= codeVerifier) "") d ;;
             match JS.truthy (tr_accessToken tokenResult) with
             | Some token =>
                 profileRes <-
                   fetch o "https://graph.microsoft.com/v1.0/me"
                     ("Bearer " +:+ token) ;;
                 profile <- json_of profileRes ;;
                 gn <- prop profile "givenName" ;;
                 sn <- prop profile "surname" ;;
                 emit (ConsoleLog [Some "Signed in as:"; gn; sn]) ;;
                 setItemAsync o "accessToken" token ;;
                 dn <- prop profile "displayName" ;;
                 gn' <- prop profile "givenName" ;;
                 sn' <- prop profile "surname" ;;
                 setAuthState (Some {| accessToken := token; displayName := dn;
                                       givenName := gn'; surname := sn' |})
             | None => ret tt
             end)
            (fun e => console_warn "[Auth] Token exchange error:" (Some e))
      end
  | _ => ret tt
  end.

(** The events of the response effect, named. *)
Definition exchangeEvent (cfg : Config) (code uri : string)
    (request : option AuthRequest) : event :=
  ExchangeCode (clientId cfg) code uri (JS.or_else (request ≫= codeVerifier) "").

Definition profileEvent (t : string) : event :=
  Fetch "https://graph.microsoft.com/v1.0/me" ("Bearer " +:+ t).

Definition exchangeWarning (e : JS.exn) : event :=
  ConsoleWarn "[Auth] Token exchange error:" (Some e).

Definition promptAsync (o : Oracle) : Eff World unit :=
  emit PromptAsync ;;
  if prompt_rejects o then throw JS.PromptError else ret tt.

Definition signIn (o : Oracle) (request : option AuthRequest) : Eff World unit :=
  match request with
  | None => console_warn "[Auth] Auth request not ready yet" None
  | Some _ => promptAsync o
  end.

Definition signOut (o : Oracle) : Eff World unit :=
  setAuthState None ;;
  deleteItemAsync o "accessToken".

(** *** AuthGate *)

(** The guard of the effect: [!loading && !authState && !autoStarted]. *)
Definition gateGuard (w : World) : bool :=
  negb (loading w) && JS.not (authState w) && negb (autoStarted w).

Definition gateEffect (o : Oracle) (request : option AuthRequest) : Eff World unit :=
  w <- get ;;
  if gateGuard w then
    setAutoStarted true ;;
    try_catch (signIn o request)
      (fun e => console_warn "[Auth] Auto sign-in error:" (Some e))
  else ret tt.

(** What [AuthGate] renders. *)
Inductive view :=
| CheckingSession
| SignInRequired
| Children (a : AuthState).

Definition gateView (w : World) : view :=
  if loading w then CheckingSession
  else match authState w with
       | None => SignInRequired
       | Some a => Children a
       end.

(** *** Process lifetime *)

(** What can happen to the mounted [AuthProvider]/[AuthGate] pair, each
    with the oracle in force while it runs. *)
Inductive action :=
| LoadToken (o : Oracle)
| Render (redirectUri : string)
| GateEffect (o : Oracle) (request : option AuthRequest)
| HandleResponse (o : Oracle) (response : option AuthSessionResult)
    (discovery : option DiscoveryDocument) (redirectUri : string)
    (request : option AuthRequest)
| PressSignIn (o : Oracle) (request : option AuthRequest)
| PressSignOut (o : Oracle).

Definition step (cfg : Config) (a : action) : Eff World unit :=
  match a with
  | LoadToken o => loadToken o
  | Render uri => renderHooks cfg uri
  | GateEffect o request => gateEffect o request
  | HandleResponse o response discovery uri request =>
      handleResponse cfg o response discovery uri request
  | PressSignIn o request => signIn o request
  | PressSignOut o => signOut o
  end.

(** Event handlers are fire-and-forget: a rejection does not stop the
    process, the next action runs in the world the previous one left. *)
Fixpoint run (cfg : Config) (acts : list action) (w : World) : World :=
  match acts with
  | [] => w
  | a :: rest => run cfg rest (exec (step cfg a) w)
  end.

(** How many times the gate effect calls [signIn] along a run. *)
Fixpoint autoSignIns (cfg : Config) (acts : list action) (w : World) : nat :=
  match acts with
  | [] => 0
  | a :: rest =>
      (match a with
       | GateEffect _ _ => if gateGuard w then 1 else 0
       | _ => 0
       end) + autoSignIns cfg rest (exec (step cfg a) w)
  end.

End Layout.

(** ** app/(tabs)/index.tsx *)

Module HomeScreen.
Import Http.

Definition BACKEND_UPLOAD_URL : string := "http://192.168.0.153:3000/upload-receipt".

Inductive event :=
| Post (url filename uri : string)
| WarnUploadFailed (filename : string) (status : nat)
| WarnUploadError (e : JS.exn).

(** The text each console event prints. *)
Definition message (ev : event) : option string :=
  match ev with
  | Post _ _ _ => None
  | WarnUploadFailed filename st =>
      Some ("Upload failed for " +:+ filename +:+ " with status " +:+ JS.show st)
  | WarnUploadError _ => Some "Upload error:"
  end.

Definition is_post (ev : event) : bool :=
  match ev with Post _ _ _ => true | _ => false end.

(** What the i-th POST of a call settles to, and [Date.now()]. *)
Record Oracle := {
  post_result : nat -> outcome Response;
  now : nat
}.

(** The state cells of [HomeScreen] that the upload touches, the local
    [successCount] of the running handler, and the trace. *)
Record World := {
  selectedImages : list string;
  isUploading : bool;
  uploadStatus : option string;
  successCount : nat;
  trace : list event
}.

Definition emit (ev : event) : Eff World unit :=
  modify (fun w =>
    {| selectedImages := selectedImages w; isUploading := isUploading w;
       uploadStatus := uploadStatus w; successCount := successCount w;
       trace := trace w ++ [ev] |}).

Definition setSelectedImages (l : list string) : Eff World unit :=
  modify (fun w =>
    {| selectedImages := l; isUploading := isUploading w;
       uploadStatus := uploadStatus w; successCount := successCount w;
       trace := trace w |}).

Definition setIsUploading (b : bool) : Eff World unit :=
  modify (fun w =>
    {| selectedImages := selectedImages w; isUploading := b;
       uploadStatus := uploadStatus w; successCount := successCount w;
       trace := trace w |}).

Definition setUploadStatus (s : option string) : Eff World unit :=
  modify (fun w =>
    {| selectedImages := selectedImages w; isUploading := isUploading w;
       uploadStatus := s; successCount := successCount w;
       trace := trace w |}).

Definition assignSuccessCount (n : nat) : Eff World unit :=
  modify (fun w =>
    {| selectedImages := selectedImages w; isUploading := isUploading w;
       uploadStatus := uploadStatus w; successCount := n;
       trace := trace w |}).

(** [await fetch(BACKEND_UPLOAD_URL, { method: "POST", body: formData })] *)
Definition fetch (o : Oracle) (i : nat) (url filename uri : string) : Eff World Response :=
  emit (Post url filename uri) ;;
  settle (post_result o i).

Definition filenameOf (o : Oracle) (uri : string) : string :=
  JS.nullish (JS.pop (JS.split "/" uri))
    ("receipt_" +:+ JS.show (now o) +:+ ".jpg").

(** The body of [for (const uri of selectedImages)], from the i-th item on. *)
Fixpoint uploadEach (o : Oracle) (i : nat) (items : list string) : Eff World unit :=
  match items with
  | [] => ret tt
  | uri :: rest =>
      let filename := filenameOf o uri in
      response <- fetch o i BACKEND_UPLOAD_URL filename uri ;;
      if negb (ok response) then
        emit (WarnUploadFailed filename (status response)) ;;
        uploadEach o (S i) rest
      else
        w <- get ;;
        assignSuccessCount (successCount w + 1)%nat ;;
        uploadEach o (S i) rest
  end.

Definition msgAllUploaded (n : nat) : string :=
  "✅ Uploaded " +:+ JS.show n +:+ " image(s) successfully!".
Definition msgAllFailed : string :=
  "❌ All uploads failed. Check network/backend.".
Definition msgPartial (n total : nat) : string :=
  "⚠️ Uploaded " +:+ JS.show n +:+ " of " +:+ JS.show total +:+ " image(s). Some failed.".
Definition msgUploadFailed : string :=
  "❌ Upload failed. Check network/backend.".

(** [handleUploadAll], closed over the [selectedImages] of the render that
    created it, run with no other handler in between; [Interleaving] below
    has the presses that can happen while a POST is awaited. *)
Definition handleUploadAll (o : Oracle) (selectedImages : list string) : Eff World unit :=
  if (length selectedImages =? 0)%nat then ret tt
  else
    setIsUploading true ;;
    setUploadStatus None ;;
    try_finally
      (try_catch
         (assignSuccessCount 0%nat ;;
          uploadEach o 0%nat selectedImages ;;
          w <- get ;;
          if (successCount w =? length selectedImages)%nat then
            setUploadStatus (Some (msgAllUploaded (successCount w))) ;;
            setSelectedImages []
          else if (successCount w =? 0)%nat then
            setUploadStatus (Some msgAllFailed)
          else
            setUploadStatus
              (Some (msgPartial (successCount w) (length selectedImages))))
         (fun e =>
            emit (WarnUploadError e) ;;
            setUploadStatus (Some msgUploadFailed)))
      (setIsUploading false).

(** Pressing "Upload": the handler of the current render runs. *)
Definition pressUpload (o : Oracle) : Eff World unit :=
  w <- get ;; handleUploadAll o (selectedImages w).

(** *** The tallies of a batch *)

(** The events a call emitted. *)
Definition emitted (w w' : World) : list event :=
  drop (length (trace w)) (trace w').

(** The items the loop reported as failed, with the status it printed. *)
Definition failures (tr : list event) : list (string * nat) :=
  omap (fun ev => match ev with
                  | WarnUploadFailed f st => Some (f, st)
                  | _ => None
                  end) tr.

Record BatchResult := {
  total : nat;
  succeeded : nat;
  failedItems : list (string * nat)
}.

(** What a call over [items] has counted when it ends in [w'], having
    started in [w]. *)
Definition batchResult (items : list string) (w w' : World) : BatchResult :=
  {| total := length items;
     succeeded := successCount w';
     failedItems := failures (emitted w w') |}.

Definition posts (tr : list event) : list event := filter (fun ev => is_post ev = true) tr.

Definition postOf (o : Oracle) (uri : string) : event :=
  Post BACKEND_UPLOAD_URL (filenameOf o uri) uri.

(** *** The loop without the world

    What [uploadEach] emits, how often it increments [successCount] and how
    it exits, as functions of the items and the oracle alone;
    [uploadEach_summary] below shows that they describe the loop. *)

Fixpoint loopEvents (o : Oracle) (i : nat) (items : list string) : list event :=
  match items with
  | [] => []
  | uri :: rest =>
      postOf o uri ::
      match post_result o i with
      | Throw _ => []
      | Ret r =>
          if ok r then loopEvents o (S i) rest
          else WarnUploadFailed (filenameOf o uri) (status r)
                 :: loopEvents o (S i) rest
      end
  end.

Fixpoint loopCount (o : Oracle) (i : nat) (items : list string) : nat :=
  match items with
  | [] => 0
  | uri :: rest =>
      match post_result o i with
      | Throw _ => 0
      | Ret r => (if ok r then 1 else 0) + loopCount o (S i) rest
      end
  end.

Fixpoint loopExit (o : Oracle) (i : nat) (items : list string) : outcome unit :=
  match items with
  | [] => Ret tt
  | uri :: rest =>
      match post_result o i with
      | Throw e => Throw e
      | Ret _ => loopExit o (S i) rest
      end
  end.

(** Per-item outcomes as the loop classifies them. *)
Definition succeeds (r : outcome Response) : bool :=
  match r with Ret resp => ok resp | Throw _ => false end.

Definition rejects (r : outcome Response) : bool :=
  match r with Ret _ => false | Throw _ => true end.

End HomeScreen.

(** ** app/(tabs)/index.tsx: camera, picker and queue handlers *)

Module Handlers.
Import HomeScreen.

Inductive CameraType := CameraBack | CameraFront.

Inductive FlashMode := FlashOff | FlashOn | FlashAuto.

(** The updater of [handleToggleCamera]:
    [prev === "back" ? "front" : "back"]. *)
Definition toggleFacing (prev : CameraType) : CameraType :=
  match prev with
  | CameraBack => CameraFront
  | _ => CameraBack
  end.

(** The updater of [handleToggleFlash]:
    [current === "off" ? "on" : current === "on" ? "auto" : "off"]. *)
Definition nextFlash (current : FlashMode) : FlashMode :=
  match current with
  | FlashOff => FlashOn
  | FlashOn => FlashAuto
  | _ => FlashOff
  end.

(** The label of the flash button. *)
Definition flashLabel (flash : FlashMode) : string :=
  match flash with
  | FlashOff => "Flash Off"
  | FlashOn => "Flash On"
  | _ => "Flash Auto"
  end.

(** [a.filter((x, i) => p(x, i))], the callback seeing indices from [i] on. *)
Fixpoint filterFrom {A} (p : A -> nat -> bool) (i : nat) (a : list A) : list A :=
  match a with
  | [] => []
  | x :: rest =>
      if p x i then x :: filterFrom p (S i) rest else filterFrom p (S i) rest
  end.

Definition filterIndexed {A} (p : A -> nat -> bool) (a : list A) : list A :=
  filterFrom p 0%nat a.

(** [setSelectedImages((prev) => f(prev))] *)
Definition updateSelectedImages (f : list string -> list string) : Eff World unit :=
  w <- get ;; setSelectedImages (f (selectedImages w)).

Definition handleRemoveAt (index : nat) : Eff World unit :=
  updateSelectedImages (filterIndexed (fun _ i => negb (i =? index)%nat)) ;;
  setUploadStatus None.

Definition handleClearAll : Eff World unit :=
  setSelectedImages [] ;;
  setUploadStatus None.

(** *** Camera and picker *)

Record PermissionResponse := { granted : bool }.

Record Photo := { photo_uri : string }.

Record Asset := { asset_uri : string }.

Record PickerResult := {
  canceled : bool;
  assets : option (list Asset)
}.

(** What the device answers: whether [cameraRef.current] is set, the camera
    permission, and how [takePictureAsync] and [launchImageLibraryAsync]
    settle. *)
Record Device := {
  cameraMounted : bool;
  permission : option PermissionResponse;
  capture : outcome (option Photo);
  pick : outcome PickerResult
}.

Inductive call :=
| TakePicture
| LaunchImageLibrary
| WarnTakePicture (e : JS.exn)
| WarnPickImage (e : JS.exn).

(** The text each warning prints. *)
Definition callMessage (c : call) : option string :=
  match c with
  | WarnTakePicture _ => Some "Error taking picture:"
  | WarnPickImage _ => Some "Error picking image from files:"
  | _ => None
  end.

(** The whole screen: the cells the upload uses, the camera cells, and the
    calls to the camera, the picker and the console. *)
Record Screen := {
  home : World;
  facing : CameraType;
  flash : FlashMode;
  calls : list call
}.

(** A computation on the upload cells, run inside the screen. *)
Definition liftHome {A} (c : Eff World A) : Eff Screen A :=
  fun s => match c (home s) with
           | (r, w') =>
               (r, {| home := w'; facing := facing s; flash := flash s;
                      calls := calls s |})
           end.

Definition emitCall (c : call) : Eff Screen unit :=
  modify (fun s =>
    {| home := home s; facing := facing s; flash := flash s;
       calls := calls s ++ [c] |}).

Definition handleToggleCamera : Eff Screen unit :=
  modify (fun s =>
    {| home := home s; facing := toggleFacing (facing s); flash := flash s;
       calls := calls s |}).

Definition handleToggleFlash : Eff Screen unit :=
  modify (fun s =>
    {| home := home s; facing := facing s; flash := nextFlash (flash s);
       calls := calls s |}).

(** [permission?.granted] *)
Definition permissionGranted (dev : Device) : bool :=
  match permission dev with
  | Some p => granted p
  | None => false
  end.

Definition handleTakePicture (dev : Device) : Eff Screen unit :=
  if negb (cameraMounted dev) || negb (permissionGranted dev) then ret tt
  else
    try_catch
      (emitCall TakePicture ;;
       photo <- settle (capture dev) ;;
       match JS.truthy (photo_uri <$> photo) with
       | Some uri =>
           liftHome (updateSelectedImages (fun prev => (prev ++ [uri])%list)) ;;
           liftHome (setUploadStatus None)
       | None => ret tt
       end)
      (fun e => emitCall (WarnTakePicture e)).

Definition handlePickFromFiles (dev : Device) : Eff Screen unit :=
  try_catch
    (emitCall LaunchImageLibrary ;;
     result <- settle (pick dev) ;;
     match assets result with
     | Some picked =>
         if negb (canceled result) && (0 <? length picked)%nat then
           let uris := map asset_uri picked in
           liftHome (updateSelectedImages (fun prev => (prev ++ uris)%list)) ;;
           liftHome (setUploadStatus None)
         else ret tt
     | None => ret tt
     end)
    (fun e => emitCall (WarnPickImage e)).

(** Whether a character occurs in a string. *)
Fixpoint occurs (c : ascii) (s : string) : bool :=
  match s with
  | EmptyString => false
  | String x rest => Ascii.eqb x c || occurs c rest
  end.

End Handlers.

(** ** app/(tabs)/index.tsx: an upload with other handlers in between

    [handleUploadAll] awaits each [fetch]; while a POST is in flight the
    screen stays responsive.  "Clear" and "Upload" are disabled while
    [isUploading] is set; the shutter, the files button, the long press on a
    thumbnail and the two camera toggles are not.  Here the handlers those
    presses run are interleaved with the loop: [during i] lists the presses
    that happen between the moment the i-th POST is issued and the moment it
    settles.  "Sign out" is left out: it unmounts the screen and its state
    with it. *)

Module Interleaving.
Import Http HomeScreen Handlers.

Inductive press :=
| ShutterPress (dev : Device)
| FilesPress (dev : Device)
| ThumbnailLongPress (index : nat)
| FlipPress
| FlashPress.

Definition handlePress (p : press) : Eff Screen unit :=
  match p with
  | ShutterPress dev => handleTakePicture dev
  | FilesPress dev => handlePickFromFiles dev
  | ThumbnailLongPress index => liftHome (handleRemoveAt index)
  | FlipPress => handleToggleCamera
  | FlashPress => handleToggleFlash
  end.

Fixpoint runPresses (ps : list press) : Eff Screen unit :=
  match ps with
  | [] => ret tt
  | p :: rest => handlePress p ;; runPresses rest
  end.

(** The loop of [handleUploadAll] from the i-th item on: the POST is
    issued, the presses of [during i] are handled, then the POST settles. *)
Fixpoint uploadEachDuring (o : Oracle) (during : nat -> list press)
    (i : nat) (items : list string) : Eff Screen unit :=
  match items with
  | [] => ret tt
  | uri :: rest =>
      let filename := filenameOf o uri in
      liftHome (emit (Post BACKEND_UPLOAD_URL filename uri)) ;;
      runPresses (during i) ;;
      response <- settle (post_result o i) ;;
      if negb (ok response) then
        liftHome (emit (WarnUploadFailed filename (status response))) ;;
        uploadEachDuring o during (S i) rest
      else
        liftHome (w <- get ;; assignSuccessCount (successCount w + 1)%nat) ;;
        uploadEachDuring o during (S i) rest
  end.

(** [handleUploadAll] with the interleaved loop. *)
Definition handleUploadAllDuring (o : Oracle) (during : nat -> list press)
    (selectedImages : list string) : Eff Screen unit :=
  if (length selectedImages =? 0)%nat then ret tt
  else
    liftHome (setIsUploading true) ;;
    liftHome (setUploadStatus None) ;;
    try_finally
      (try_catch
         (liftHome (assignSuccessCount 0%nat) ;;
          uploadEachDuring o during 0%nat selectedImages ;;
          s <- get ;;
          if (successCount (home s) =? length selectedImages)%nat then
            liftHome (setUploadStatus
                        (Some (msgAllUploaded (successCount (home s))))) ;;
            liftHome (setSelectedImages [])
          else if (successCount (home s) =? 0)%nat then
            liftHome (setUploadStatus (Some msgAllFailed))
          else
            liftHome (setUploadStatus
                        (Some (msgPartial (successCount (home s))
                                 (length selectedImages)))))
         (fun e =>
            liftHome (emit (WarnUploadError e)) ;;
            liftHome (setUploadStatus (Some msgUploadFailed))))
      (liftHome (setIsUploading false)).

(** Pressing "Upload": the handler of the current render runs. *)
Definition pressUploadDuring (o : Oracle) (during : nat -> list press) :
    Eff Screen unit :=
  s <- get ;; handleUploadAllDuring o during (selectedImages (home s)).

(** The presses that were handled in the course of the loop: those during
    every POST that was issued, up to and including the first one that
    rejects. *)
Fixpoint pressesDuring (o : Oracle) (during : nat -> list press)
    (i : nat) (items : list string) : list press :=
  match items with
  | [] => []
  | _ :: rest =>
      (during i ++
       match post_result o i with
       | Throw _ => []
       | Ret _ => pressesDuring o during (S i) rest
       end)%list
  end.

End Interleaving.

(** ** The process over its lifetime *)

Module Process.
Import Layout.

(** How many times the sign-in prompt was opened. *)
Fixpoint prompts (tr : list event) : nat :=
  match tr with
  | [] => 0
  | PromptAsync :: rest => S (prompts rest)
  | _ :: rest => prompts rest
  end.

(** How many presses of "Sign in" found the request ready. *)
Fixpoint readyPresses (acts : list action) : nat :=
  match acts with
  | [] => 0
  | PressSignIn _ (Some _) :: rest => S (readyPresses rest)
  | _ :: rest => readyPresses rest
  end.



Definition isLoadToken (a : action) : bool :=
  match a with LoadToken _ => true | _ => false end.

(** A new process over the secure store the previous one left. *)
Definition restart (w : World) : World := initial (secureStore w).

End Process.

(** ** Concrete inputs used in the examples *)

Module Samples.
Import Http.

Definition resp (n : nat) : outcome Response :=
  Ret {| status := n; body := None |}.

Definition photoA : string := "file:///photos/a.jpg".
Definition photoB : string := "file:///photos/b.jpg".
Definition photoC : string := "file:///photos/c.jpg".

Definition home (queue : list string) : HomeScreen.World :=
  {| HomeScreen.selectedImages := queue;
     HomeScreen.isUploading := false;
     HomeScreen.uploadStatus := Some "previous status";
     HomeScreen.successCount := 0;
     HomeScreen.trace := [] |}.

(** Every POST answered 200. *)
Definition allOk : HomeScreen.Oracle :=
  {| HomeScreen.post_result := fun _ => resp 200; HomeScreen.now := 0 |}.

(** Every POST answered 500. *)
Definition all500 : HomeScreen.Oracle :=
  {| HomeScreen.post_result := fun _ => resp 500; HomeScreen.now := 0 |}.

(** The second POST answered 500, the others 200. *)
Definition second500 : HomeScreen.Oracle :=
  {| HomeScreen.post_result :=
       fun i => match i with 1 => resp 500 | _ => resp 200 end;
     HomeScreen.now := 0 |}.

(** The first POST rejects (no connection), the others would be answered 200. *)
Definition firstRejects : HomeScreen.Oracle :=
  {| HomeScreen.post_result :=
       fun i => match i with 0 => Throw JS.NetworkError | _ => resp 200 end;
     HomeScreen.now := 0 |}.

(** *** Session *)

Definition cfg : Layout.Config :=
  {| Layout.TENANT_ID := Some "contoso"; Layout.CLIENT_ID := Some "app-1" |}.

Definition cfgAbsent : Layout.Config :=
  {| Layout.TENANT_ID := None; Layout.CLIENT_ID := None |}.

Definition redirect : string := "exp://127.0.0.1:8081".

Definition discovery : Layout.DiscoveryDocument :=
  {| Layout.authorizationEndpoint := "https://login.example/authorize";
     Layout.tokenEndpoint := "https://login.example/token" |}.

Definition request : Layout.AuthRequest :=
  {| Layout.codeVerifier := Some "verifier" |}.

Definition profileAda : gmap string string :=
  <["displayName" := "Ada Lovelace"]>
    (<["givenName" := "Ada"]> (<["surname" := "Lovelace"]> ∅)).

(** Everything answers: the exchange yields "tok1", the profile is Ada's. *)
Definition healthy : Layout.Oracle :=
  {| Layout.getItem_rejects := false;
     Layout.setItem_rejects := false;
     Layout.deleteItem_rejects := false;
     Layout.prompt_rejects := false;
     Layout.exchange_result := Ret {| Layout.tr_accessToken := Some "tok1" |};
     Layout.me_result :=
       Ret {| status := 200; body := Some (JObject profileAda) |} |}.

Definition withProfile (r : outcome Response) : Layout.Oracle :=
  {| Layout.getItem_rejects := false;
     Layout.setItem_rejects := false;
     Layout.deleteItem_rejects := false;
     Layout.prompt_rejects := false;
     Layout.exchange_result := Ret {| Layout.tr_accessToken := Some "tok1" |};
     Layout.me_result := r |}.

(** The profile request gets no response. *)
Definition profileDown : Layout.Oracle := withProfile (Throw JS.NetworkError).

(** The profile request is answered 401 with an empty JSON object. *)
Definition profileDenied : Layout.Oracle :=
  withProfile (Ret {| status := 401; body := Some (JObject ∅) |}).

(** The exchange yields an empty access token. *)
Definition emptyToken : Layout.Oracle :=
  {| Layout.getItem_rejects := false;
     Layout.setItem_rejects := false;
     Layout.deleteItem_rejects := false;
     Layout.prompt_rejects := false;
     Layout.exchange_result := Ret {| Layout.tr_accessToken := Some "" |};
     Layout.me_result :=
       Ret {| status := 200; body := Some (JObject profileAda) |} |}.

(** The secure store rejects every operation. *)
Definition storeBroken : Layout.Oracle :=
  {| Layout.getItem_rejects := true;
     Layout.setItem_rejects := true;
     Layout.deleteItem_rejects := true;
     Layout.prompt_rejects := false;
     Layout.exchange_result := Ret {| Layout.tr_accessToken := Some "tok1" |};
     Layout.me_result :=
       Ret {| status := 200; body := Some (JObject profileAda) |} |}.

Definition storeAbc : gmap string string := <["accessToken" := "abc123"]> ∅.

Definition storeBlank : gmap string string := <["accessToken" := ""]> ∅.

(** Startup finished without a session; the gate has not run yet. *)
Definition signedOut : Layout.World :=
  {| Layout.authState := None; Layout.loading := false;
     Layout.autoStarted := false; Layout.secureStore := ∅;
     Layout.trace := [] |}.

(** A restored session. *)
Definition signedIn : Layout.World :=
  {| Layout.authState :=
       Some {| Layout.accessToken := "abc123"; Layout.displayName := None;
               Layout.givenName := None; Layout.surname := None |};
     Layout.loading := false; Layout.autoStarted := false;
     Layout.secureStore := storeAbc; Layout.trace := [] |}.

End Samples.

Module MoreSamples.
Import Handlers.

Definition screen (queue : list string) : Screen :=
  {| home := Samples.home queue; facing := CameraBack; flash := FlashOff;
     calls := [] |}.

(** The camera is mounted and permitted and returns the photo C; the picker
    returns A and B. *)
Definition ready : Device :=
  {| cameraMounted := true;
     permission := Some {| granted := true |};
     capture := Ret (Some {| photo_uri := Samples.photoC |});
     pick := Ret {| canceled := false;
                    assets := Some [ {| asset_uri := Samples.photoA |};
                                     {| asset_uri := Samples.photoB |} ] |} |}.

(** The permission was refused. *)
Definition refused : Device :=
  {| cameraMounted := true;
     permission := Some {| granted := false |};
     capture := Ret (Some {| photo_uri := Samples.photoC |});
     pick := Ret {| canceled := true; assets := None |} |}.

(** The store accepts the write but rejects the delete. *)
Definition deleteBroken : Layout.Oracle :=
  {| Layout.getItem_rejects := false;
     Layout.setItem_rejects := false;
     Layout.deleteItem_rejects := true;
     Layout.prompt_rejects := false;
     Layout.exchange_result := Ret {| Layout.tr_accessToken := Some "tok1" |};
     Layout.me_result :=
       Ret {| Http.status := 200;
              Http.body := Some (Http.JObject Samples.profileAda) |} |}.

(** The exchange itself is refused. *)
Definition exchangeDown : Layout.Oracle :=
  {| Layout.getItem_rejects := false;
     Layout.setItem_rejects := false;
     Layout.deleteItem_rejects := false;
     Layout.prompt_rejects := false;
     Layout.exchange_result := Throw JS.ExchangeError;
     Layout.me_result :=
       Ret {| Http.status := 200;
              Http.body := Some (Http.JObject Samples.profileAda) |} |}.

(** The store rejects the write of the token. *)
Definition writeBroken : Layout.Oracle :=
  {| Layout.getItem_rejects := false;
     Layout.setItem_rejects := true;
     Layout.deleteItem_rejects := false;
     Layout.prompt_rejects := false;
     Layout.exchange_result := Ret {| Layout.tr_accessToken := Some "tok1" |};
     Layout.me_result :=
       Ret {| Http.status := 200;
              Http.body := Some (Http.JObject Samples.profileAda) |} |}.

(** While the first POST is in flight the user takes the photo C. *)
Definition captureDuringFirst (i : nat) : list Interleaving.press :=
  match i with
  | 0 => [Interleaving.ShutterPress ready]
  | _ => []
  end.

(** While the second POST is in flight the user removes the first
    thumbnail. *)
Definition removeDuringSecond (i : nat) : list Interleaving.press :=
  match i with
  | 1 => [Interleaving.ThumbnailLongPress 0]
  | _ => []
  end.

End MoreSamples.

(** * Properties of the batch upload *)

Module HomeScreenSpec.
Import Http HomeScreen.
Local Open Scope list_scope.
Local Open Scope nat_scope.

Lemma emitted_app (w w' : World) (tr : list event) :
  trace w' = trace w ++ tr -> emitted w w' = tr.
Proof.
  intros E. unfold emitted. rewrite E. apply drop_app_length.
Qed.

Lemma failures_app (a b : list event) :
  failures (a ++ b) = failures a ++ failures b.
Proof. unfold failures. apply omap_app. Qed.

Lemma posts_cons_post (o : Oracle) (uri : string) (tr : list event) :
  posts (postOf o uri :: tr) = postOf o uri :: posts tr.
Proof. reflexivity. Qed.

Lemma posts_cons_warn (f : string) (st : nat) (tr : list event) :
  posts (WarnUploadFailed f st :: tr) = posts tr.
Proof. reflexivity. Qed.

Lemma failures_cons_post (o : Oracle) (uri : string) (tr : list event) :
  failures (postOf o uri :: tr) = failures tr.
Proof. reflexivity. Qed.

Lemma failures_cons_warn (f : string) (st : nat) (tr : list event) :
  failures (WarnUploadFailed f st :: tr) = (f, st) :: failures tr.
Proof. reflexivity. Qed.

Section Loop.
Variable o : Oracle.

(** The loop is described by its three summaries. *)
Lemma uploadEach_summary (items : list string) :
  forall (i : nat) (w : World),
    uploadEach o i items w =
    (loopExit o i items,
     {| selectedImages := selectedImages w;
        isUploading := isUploading w;
        uploadStatus := uploadStatus w;
        successCount := successCount w + loopCount o i items;
        trace := trace w ++ loopEvents o i items |}).
Proof.
  induction items as [|uri rest IH]; intros i w.
  - cbn. rewrite Nat.add_0_r, app_nil_r. destruct w; reflexivity.
  - cbn [uploadEach loopExit loopCount loopEvents].
    unfold bind at 1. unfold fetch, bind, emit, modify, settle.
    destruct (post_result o i) as [r|e]; cbn.
    + destruct (ok r); cbn.
      * unfold bind, get, assignSuccessCount, modify. rewrite IH. cbn.
        rewrite <- app_assoc. cbn.
        replace (successCount w + 1 + loopCount o (S i) rest)
          with (successCount w + S (loopCount o (S i) rest)) by lia.
        reflexivity.
      * unfold bind, emit, modify. rewrite IH. cbn.
        rewrite <- !app_assoc. reflexivity.
    + rewrite Nat.add_0_r. reflexivity.
Qed.

(** Shifting a hypothesis about the items from [i] on to the tail. *)
Lemma shift_tail (P : outcome Response -> Prop) (i n : nat) :
  (forall k, k < S n -> P (post_result o (i + k))) ->
  P (post_result o i) /\ (forall k, k < n -> P (post_result o (S i + k))).
Proof.
  intros H. split.
  - specialize (H 0). rewrite Nat.add_0_r in H. apply H. lia.
  - intros k Hk. specialize (H (S k)). rewrite Nat.add_succ_r in H.
    apply H. lia.
Qed.

Ltac shift_tail_in H P :=
  cbn [length] in H; apply (shift_tail P) in H.

Lemma loopCount_le (items : list string) :
  forall i, loopCount o i items <= length items.
Proof.
  induction items as [|uri rest IH]; intros i; cbn; [lia|].
  destruct (post_result o i) as [r|e]; [|lia].
  specialize (IH (S i)). destruct (ok r); lia.
Qed.

Lemma loop_tally_le (items : list string) :
  forall i,
    loopCount o i items + length (failures (loopEvents o i items))
    <= length items.
Proof.
  induction items as [|uri rest IH]; intros i;
    cbn [loopCount loopEvents length]; [cbn; lia|].
  rewrite failures_cons_post.
  destruct (post_result o i) as [r|e]; [|cbn; lia].
  specialize (IH (S i)).
  destruct (ok r); [|rewrite failures_cons_warn]; cbn [length]; lia.
Qed.

(** When every POST gets a response the loop runs to the end. *)
Lemma loop_no_reject (items : list string) :
  forall i,
    (forall k, k < length items -> rejects (post_result o (i + k)) = false) ->
    loopExit o i items = Ret tt /\
    loopCount o i items + length (failures (loopEvents o i items))
      = length items /\
    posts (loopEvents o i items) = map (postOf o) items.
Proof.
  induction items as [|uri rest IH]; intros i H; cbn [loopExit loopCount loopEvents length map].
  - repeat split.
  - shift_tail_in H (fun r => rejects r = false). destruct H as [H0 Ht].
    destruct (IH (S i) Ht) as (E & C & P).
    destruct (post_result o i) as [r|e]; [|discriminate].
    rewrite posts_cons_post, failures_cons_post.
    destruct (ok r).
    + rewrite E, P. repeat split. lia.
    + rewrite posts_cons_warn, failures_cons_warn, E, P. cbn [length].
      repeat split. lia.
Qed.

(** The first POST that rejects ends the loop: the tallies cover the
    items before it and no later item is posted. *)
Lemma loop_first_reject (items : list string) :
  forall i k,
    k < length items ->
    (forall j, j < k -> rejects (post_result o (i + j)) = false) ->
    rejects (post_result o (i + k)) = true ->
    (exists e, post_result o (i + k) = Throw e /\
               loopExit o i items = Throw e) /\
    loopCount o i items + length (failures (loopEvents o i items)) = k /\
    posts (loopEvents o i items) = map (postOf o) (take (S k) items).
Proof.
  induction items as [|uri rest IH]; intros i k Hk Hbefore Hrej;
    cbn [length] in Hk; [lia|].
  cbn [loopExit loopCount loopEvents].
  destruct k as [|k].
  - rewrite Nat.add_0_r in Hrej |- *.
    destruct (post_result o i) as [r|e]; [discriminate|].
    rewrite posts_cons_post, failures_cons_post.
    split; [exists e; split; reflexivity|].
    split; [reflexivity|].
    cbn. rewrite take_0. reflexivity.
  - apply (shift_tail (fun r => rejects r = false)) in Hbefore.
    destruct Hbefore as [H0 Ht].
    rewrite Nat.add_succ_r in Hrej |- *.
    destruct (IH (S i) k ltac:(lia) Ht Hrej) as ((e & Ee & Ex) & C & P).
    destruct (post_result o i) as [r|e0]; [|discriminate].
    rewrite posts_cons_post, failures_cons_post.
    split; [exists e; split; assumption|].
    destruct (ok r).
    + rewrite P. split; [lia|reflexivity].
    + rewrite posts_cons_warn, failures_cons_warn, P. cbn [length].
      split; [lia|reflexivity].
Qed.

(** [successCount] reaches the length of the queue exactly when every
    item succeeded. *)
Lemma loopCount_all (items : list string) :
  forall i,
    (forall k, k < length items -> succeeds (post_result o (i + k)) = true) ->
    loopCount o i items = length items /\ loopExit o i items = Ret tt.
Proof.
  induction items as [|uri rest IH]; intros i H; cbn [loopExit loopCount length].
  - split; reflexivity.
  - shift_tail_in H (fun r => succeeds r = true). destruct H as [H0 Ht].
    destruct (IH (S i) Ht) as [C E].
    destruct (post_result o i) as [r|e]; [|discriminate].
    cbn in H0. rewrite H0, C. split; [reflexivity|assumption].
Qed.

Lemma loopCount_full (items : list string) :
  forall i,
    loopCount o i items = length items ->
    forall k, k < length items -> succeeds (post_result o (i + k)) = true.
Proof.
  induction items as [|uri rest IH]; intros i C k Hk; cbn [length] in *; [lia|].
  cbn [loopCount] in C.
  destruct (post_result o i) as [r|e] eqn:E; [|discriminate].
  pose proof (loopCount_le rest (S i)) as Hle.
  destruct (ok r) eqn:Eok; [|cbn in C; lia].
  destruct k as [|k].
  - rewrite Nat.add_0_r, E. exact Eok.
  - rewrite Nat.add_succ_r. apply (IH (S i)); [cbn in C; lia | lia].
Qed.

Lemma loopCount_none (items : list string) :
  forall i,
    (forall k, k < length items -> succeeds (post_result o (i + k)) = false) ->
    loopCount o i items = 0.
Proof.
  induction items as [|uri rest IH]; intros i H; cbn [loopCount length] in *.
  - reflexivity.
  - shift_tail_in H (fun r => succeeds r = false). destruct H as [H0 Ht].
    destruct (post_result o i) as [r|e]; [|reflexivity].
    cbn in H0. rewrite H0, (IH (S i) Ht). reflexivity.
Qed.

(** An item answered with a non-2xx status, reached by the loop, is in
    the list of failures with that status. *)
Lemma loop_failure_logged (items : list string) :
  forall i k uri r,
    items !! k = Some uri ->
    (forall j, j < k -> rejects (post_result o (i + j)) = false) ->
    post_result o (i + k) = Ret r ->
    ok r = false ->
    In (filenameOf o uri, status r) (failures (loopEvents o i items)).
Proof.
  induction items as [|x rest IH]; intros i k uri r Hk Hbefore Hr Hok;
    [discriminate|].
  cbn [loopEvents]. rewrite failures_cons_post.
  destruct k as [|k].
  - cbn in Hk. injection Hk as ->. rewrite Nat.add_0_r in Hr.
    rewrite Hr, Hok, failures_cons_warn. left. reflexivity.
  - cbn in Hk. apply (shift_tail (fun r => rejects r = false)) in Hbefore.
    destruct Hbefore as [H0 Ht].
    rewrite Nat.add_succ_r in Hr.
    pose proof (IH (S i) k uri r Hk Ht Hr Hok) as Hin.
    destruct (post_result o i) as [r0|e]; [|discriminate].
    destruct (ok r0); [assumption|].
    rewrite failures_cons_warn. right. assumption.
Qed.

(** The handler in terms of the loop summaries. *)
Lemma handleUploadAll_summary (items : list string) (w : World) :
  items <> [] ->
  handleUploadAll o items w =
  (Ret tt,
   match loopExit o 0 items with
   | Ret _ =>
       if loopCount o 0 items =? length items then
         {| selectedImages := []; isUploading := false;
            uploadStatus := Some (msgAllUploaded (loopCount o 0 items));
            successCount := loopCount o 0 items;
            trace := trace w ++ loopEvents o 0 items |}
       else if loopCount o 0 items =? 0 then
         {| selectedImages := selectedImages w; isUploading := false;
            uploadStatus := Some msgAllFailed;
            successCount := loopCount o 0 items;
            trace := trace w ++ loopEvents o 0 items |}
       else
         {| selectedImages := selectedImages w; isUploading := false;
            uploadStatus :=
              Some (msgPartial (loopCount o 0 items) (length items));
            successCount := loopCount o 0 items;
            trace := trace w ++ loopEvents o 0 items |}
   | Throw e =>
       {| selectedImages := selectedImages w; isUploading := false;
          uploadStatus := Some msgUploadFailed;
          successCount := loopCount o 0 items;
          trace := trace w ++ loopEvents o 0 items ++ [WarnUploadError e] |}
   end).
Proof.
  intros Hne. destruct items as [|uri rest]; [congruence|].
  unfold handleUploadAll. cbn [length Nat.eqb].
  unfold try_finally, try_catch, bind, setIsUploading, setUploadStatus,
    assignSuccessCount, setSelectedImages, emit, get, modify.
  rewrite uploadEach_summary. cbn [successCount trace selectedImages
    isUploading uploadStatus Nat.add].
  destruct (loopExit o 0 (uri :: rest)) as [[]|e].
  - destruct (loopCount o 0 (uri :: rest) =? S (length rest)); [reflexivity|].
    destruct (loopCount o 0 (uri :: rest) =? 0); reflexivity.
  - cbn [successCount trace selectedImages isUploading uploadStatus].
    rewrite <- app_assoc. reflexivity.
Qed.

Lemma posts_app (a b : list event) : posts (a ++ b) = posts a ++ posts b.
Proof. unfold posts. apply filter_app. Qed.

(** What a call over a non-empty queue leaves behind. *)
Lemma handleUploadAll_fields (items : list string) (w : World) :
  items <> [] ->
  let w' := exec (handleUploadAll o items) w in
  result (handleUploadAll o items) w = Ret tt /\
  isUploading w' = false /\
  successCount w' = loopCount o 0 items /\
  failures (emitted w w') = failures (loopEvents o 0 items) /\
  posts (emitted w w') = posts (loopEvents o 0 items) /\
  selectedImages w' =
    (if returns (loopExit o 0 items)
        && (loopCount o 0 items =? length items)
     then [] else selectedImages w) /\
  (returns (loopExit o 0 items) = false ->
   uploadStatus w' = Some msgUploadFailed).
Proof.
  intros Hne w'. subst w'. unfold exec, result.
  rewrite (handleUploadAll_summary items w Hne). cbn [fst snd].
  split; [reflexivity|].
  destruct (loopExit o 0 items) as [[]|e]; cbn [returns andb].
  - destruct (loopCount o 0 items =? length items);
      [|destruct (loopCount o 0 items =? 0)];
      (repeat split; try discriminate;
       try (erewrite emitted_app; [reflexivity|reflexivity])).
  - repeat split;
      try (erewrite emitted_app; [|reflexivity]).
    + rewrite failures_app. cbn. apply app_nil_r.
    + rewrite posts_app. cbn. apply app_nil_r.
Qed.

End Loop.

(** C10. Calling the upload on an empty queue is a no-op: the handler
    returns at once, and the world it returns is the one it was given, so
    no request was issued and the queue, the uploading flag and the status
    message are what they were. *)
Theorem uploadAll_empty_noop (o : Oracle) (w : World) :
  handleUploadAll o [] w = (Ret tt, w) /\
  (selectedImages w = [] -> pressUpload o w = (Ret tt, w)).
Proof.
  split; [reflexivity|].
  intros E. unfold pressUpload, bind, get. rewrite E. reflexivity.
Qed.

Lemma uploadAll_empty_noop_witness :
  pressUpload Samples.allOk (Samples.home []) = (Ret tt, Samples.home []).
Proof.
  apply (proj2 (uploadAll_empty_noop Samples.allOk (Samples.home []))).
  reflexivity.
Defined.



(** Queue [A; B; C], B answered 500: two succeed, B is listed with its
    status, the summary is the partial one and the queue stays. *)
Example upload_one_of_three_fails :
  let items := [Samples.photoA; Samples.photoB; Samples.photoC] in
  let w := Samples.home items in
  let w' := exec (pressUpload Samples.second500) w in
  batchResult items w w'
    = {| total := 3; succeeded := 2; failedItems := [("b.jpg", 500)] |} /\
  uploadStatus w' = Some (msgPartial 2 3) /\
  selectedImages w' = items /\
  isUploading w' = false.
Proof. vm_compute. repeat split. Qed.

(** Queue [A; B], both answered 200: the queue is emptied. *)
Example upload_both_succeed :
  let items := [Samples.photoA; Samples.photoB] in
  let w := Samples.home items in
  let w' := exec (pressUpload Samples.allOk) w in
  batchResult items w w'
    = {| total := 2; succeeded := 2; failedItems := [] |} /\
  uploadStatus w' = Some (msgAllUploaded 2) /\
  selectedImages w' = [].
Proof. vm_compute. repeat split. Qed.

(** C4, as the claim states it, fails: with two items and a first POST
    that rejects, the call ends with no item counted as succeeded and none
    listed as failed. *)
Lemma batch_tally_counterexample :
  let items := [Samples.photoA; Samples.photoB] in
  let br :=
    batchResult items (Samples.home items)
      (exec (handleUploadAll Samples.firstRejects items) (Samples.home items)) in
  total br = 2 /\ succeeded br = 0 /\ failedItems br = [] /\
  succeeded br + length (failedItems br) <> total br.
Proof. vm_compute. repeat split; discriminate. Qed.

(** C4, amended. For a non-empty queue, [total] is the number of items
    and [succeeded + len(failedItems) <= total]; the two sides are equal
    whenever every POST receives a response, and when a POST rejects they
    count the items before the first one that did. *)
Theorem batch_tally (o : Oracle) (items : list string) (w : World) :
  items <> [] ->
  let br := batchResult items w (exec (handleUploadAll o items) w) in
  total br = length items /\
  succeeded br + length (failedItems br) <= total br /\
  ((forall k, k < length items -> rejects (post_result o k) = false) ->
   succeeded br + length (failedItems br) = total br) /\
  (forall k,
     k < length items ->
     (forall j, j < k -> rejects (post_result o j) = false) ->
     rejects (post_result o k) = true ->
     succeeded br + length (failedItems br) = k).
Proof.
  intros Hne br. subst br. unfold batchResult. cbn [total succeeded failedItems].
  destruct (handleUploadAll_fields o items w Hne)
    as (_ & _ & Hc & Hf & _).
  rewrite Hc, Hf.
  split; [reflexivity|].
  split; [apply loop_tally_le|].
  split.
  - intros Hresp. apply (loop_no_reject o items 0 Hresp).
  - intros k Hk Hbefore Hrej.
    apply (loop_first_reject o items 0 k Hk Hbefore Hrej).
Qed.

Lemma batch_tally_witness :
  let items := [Samples.photoA; Samples.photoB; Samples.photoC] in
  let br :=
    batchResult items (Samples.home items)
      (exec (handleUploadAll Samples.second500 items) (Samples.home items)) in
  succeeded br + length (failedItems br) = total br.
Proof.
  intros items br.
  destruct (batch_tally Samples.second500 items (Samples.home items))
    as (_ & _ & A & _); [discriminate|].
  apply A. intros k _. destruct k as [|[|k]]; reflexivity.
Defined.

(** C2, as the claim states it, fails for a transport exception: with
    two items and a first POST that rejects, the second item is never
    posted and nothing is listed as failed for the first. *)
Lemma upload_isolation_counterexample :
  let items := [Samples.photoA; Samples.photoB] in
  let w' := exec (pressUpload Samples.firstRejects) (Samples.home items) in
  ~ In (postOf Samples.firstRejects Samples.photoB) (trace w') /\
  failures (trace w') = [] /\
  posts (trace w') <> map (postOf Samples.firstRejects) items.
Proof.
  vm_compute. split; [|split].
  - intros [H|[H|[]]]; discriminate.
  - reflexivity.
  - discriminate.
Qed.

(** Every entry of the failure list stands for an item that was answered
    with a non-2xx status. *)
Lemma loop_failure_sound (o : Oracle) (items : list string) :
  forall i f st,
    In (f, st) (failures (loopEvents o i items)) ->
    exists k uri r,
      items !! k = Some uri /\ post_result o (i + k) = Ret r /\
      ok r = false /\ f = filenameOf o uri /\ st = status r.
Proof.
  induction items as [|x rest IH]; intros i f st Hin; [destruct Hin|].
  cbn [loopEvents] in Hin. rewrite failures_cons_post in Hin.
  destruct (post_result o i) as [r|e] eqn:E; [|destruct Hin].
  assert (Htail : In (f, st) (failures (loopEvents o (S i) rest)) ->
                  exists k uri r0,
                    (x :: rest) !! k = Some uri /\
                    post_result o (i + k) = Ret r0 /\
                    ok r0 = false /\ f = filenameOf o uri /\ st = status r0).
  { intros H. destruct (IH (S i) f st H) as (k & uri & r0 & A & B & C & D).
    exists (S k), uri, r0. rewrite Nat.add_succ_r.
    split; [exact A|]. split; [exact B|]. split; [exact C|exact D]. }
  destruct (ok r) eqn:Eok; [exact (Htail Hin)|].
  rewrite failures_cons_warn in Hin. destruct Hin as [H|H]; [|exact (Htail H)].
  injection H as <- <-. exists 0, x, r. rewrite Nat.add_0_r.
  repeat split; assumption.
Qed.

(** C2, amended. A call over a non-empty queue always returns normally.
    An item answered with a non-2xx status is listed as failed with that
    status, only such items are listed, and the loop goes on: when every
    POST receives a response, every item is posted once, in order.  A POST
    that rejects is not a per-item failure: the loop ends there, the items
    after it are not posted, the status reads "Upload failed", the queue
    is unchanged and the uploading flag is reset. *)
Theorem upload_failure_isolation (o : Oracle) (items : list string) (w : World) :
  items <> [] ->
  let w' := exec (handleUploadAll o items) w in
  let tr := emitted w w' in
  result (handleUploadAll o items) w = Ret tt /\
  (forall k uri r,
     items !! k = Some uri ->
     (forall j, j < k -> rejects (post_result o j) = false) ->
     post_result o k = Ret r -> ok r = false ->
     In (filenameOf o uri, status r) (failures tr)) /\
  (forall f st,
     In (f, st) (failures tr) ->
     exists k uri r,
       items !! k = Some uri /\ post_result o k = Ret r /\
       ok r = false /\ f = filenameOf o uri /\ st = status r) /\
  ((forall k, k < length items -> rejects (post_result o k) = false) ->
   posts tr = map (postOf o) items) /\
  (forall k,
     k < length items ->
     (forall j, j < k -> rejects (post_result o j) = false) ->
     rejects (post_result o k) = true ->
     posts tr = map (postOf o) (take (S k) items) /\
     uploadStatus w' = Some msgUploadFailed /\
     selectedImages w' = selectedImages w /\
     isUploading w' = false).
Proof.
  intros Hne w' tr. subst tr w'.
  destruct (handleUploadAll_fields o items w Hne)
    as (Hr & Hu & _ & Hf & Hp & Hq & Hs).
  rewrite Hf, Hp.
  split; [exact Hr|].
  split; [|split; [|split]].
  - intros k uri r Hk Hbefore Hres Hok.
    apply (loop_failure_logged o items 0 k uri r Hk Hbefore Hres Hok).
  - intros f st Hin. apply (loop_failure_sound o items 0 f st Hin).
  - intros Hresp. apply (loop_no_reject o items 0 Hresp).
  - intros k Hk Hbefore Hrej.
    destruct (loop_first_reject o items 0 k Hk Hbefore Hrej)
      as ((e & _ & Ex) & _ & P).
    cbn [Nat.add] in Ex. rewrite Ex in Hq, Hs. cbn [returns andb] in Hq, Hs.
    split; [exact P|]. split; [exact (Hs eq_refl)|].
    split; [exact Hq|exact Hu].
Qed.

Lemma upload_failure_isolation_witness :
  let items := [Samples.photoA; Samples.photoB; Samples.photoC] in
  let w := Samples.home items in
  let w' := exec (handleUploadAll Samples.second500 items) w in
  In (filenameOf Samples.second500 Samples.photoB, 500)
     (failures (emitted w w')) /\
  posts (emitted w w') = map (postOf Samples.second500) items.
Proof.
  intros items w w'.
  destruct (upload_failure_isolation Samples.second500 items w)
    as (_ & A & _ & B & _); [discriminate|].
  split.
  - apply (A 1 Samples.photoB {| status := 500; body := None |});
      try reflexivity.
    intros j Hj. destruct j as [|j]; [reflexivity|lia].
  - apply B. intros k _. destruct k as [|[|k]]; reflexivity.
Defined.

End HomeScreenSpec.

(** * Properties of the session lifecycle *)

Module LayoutSpec.
Import Http Layout.
Local Open Scope list_scope.
Local Open Scope nat_scope.

(** Unfolds a computation down to matches on what the oracle answers. *)
Ltac unfold_eff :=
  unfold exec, result, loadToken, renderHooks, handleResponse, gateEffect,
    signOut, signIn, promptAsync, getItemAsync, setItemAsync,
    deleteItemAsync, exchangeCodeAsync, fetch, json_of, prop, console_warn,
    setAuthState, setLoading, setAutoStarted, setStore, emit,
    try_finally, try_catch, bind, ret, throw, get, modify, settle.

Lemma truthy_some (s : option string) (t : string) :
  JS.truthy s = Some t -> s = Some t /\ t <> "".
Proof.
  destruct s as [u|]; cbn; [|discriminate].
  destruct (String.eqb_spec u ""); [discriminate|].
  intros [= ->]. split; [reflexivity|assumption].
Qed.

Lemma truthy_present (t : string) : t <> "" -> JS.truthy (Some t) = Some t.
Proof.
  intros H. cbn. destruct (String.eqb_spec t ""); [contradiction|reflexivity].
Qed.

Lemma truthy_none (s : option string) :
  JS.truthy s = None <-> s = None \/ s = Some "".
Proof.
  destruct s as [u|]; cbn.
  - destruct (String.eqb_spec u "") as [->|Hne]; split; intros H;
      try discriminate; try (right; reflexivity); try reflexivity.
    destruct H as [H|[= H]]; [discriminate|contradiction].
  - split; intros _; [left|]; reflexivity.
Qed.

(** The startup load, written out. *)
Lemma loadToken_summary (o : Oracle) (w : World) :
  loadToken o w =
  (Ret tt,
   {| authState :=
        if getItem_rejects o then authState w
        else match JS.truthy (secureStore w !! "accessToken") with
             | Some t => Some {| accessToken := t; displayName := None;
                                 givenName := None; surname := None |}
             | None => authState w
             end;
      loading := false;
      autoStarted := autoStarted w;
      secureStore := secureStore w;
      trace :=
        trace w ++ GetItem "accessToken" ::
          (if getItem_rejects o
           then [ConsoleWarn "[Auth] Error loading token:" (Some JS.StorageError)]
           else []) |}).
Proof.
  unfold_eff. cbn [secureStore trace authState loading autoStarted].
  destruct (getItem_rejects o); cbn [secureStore trace authState loading autoStarted].
  - rewrite <- app_assoc. reflexivity.
  - destruct (JS.truthy (secureStore w !! "accessToken")); reflexivity.
Qed.

(** C7. Restore on start.  The load never throws; it makes no network
    call; a present, non-empty stored token leads straight to the
    authenticated view with exactly that token and no profile field; an
    absent token or a failed read leads to the sign-in view. *)
Theorem restore_on_start (o : Oracle) (store : gmap string string) :
  let w' := exec (loadToken o) (initial store) in
  result (loadToken o) (initial store) = Ret tt /\
  Forall (fun ev => is_network ev = false) (trace w') /\
  secureStore w' = store /\
  (forall t,
     getItem_rejects o = false ->
     store !! "accessToken" = Some t -> t <> "" ->
     loading w' = false /\
     authState w' = Some {| accessToken := t; displayName := None;
                            givenName := None; surname := None |} /\
     gateView w' = Children {| accessToken := t; displayName := None;
                               givenName := None; surname := None |}) /\
  (getItem_rejects o = true \/ store !! "accessToken" = None ->
   loading w' = false /\ authState w' = None /\
   gateView w' = SignInRequired).
Proof.
  intros w'. subst w'. unfold exec, result.
  rewrite loadToken_summary. cbn [fst snd]. unfold gateView.
  cbn [authState loading secureStore trace initial].
  split; [reflexivity|]. split; [|split; [reflexivity|split]].
  - destruct (getItem_rejects o); repeat constructor.
  - intros t Hread Hstored Hne. rewrite Hread, Hstored, (truthy_present t Hne).
    repeat split.
  - intros [Hread|Habsent].
    + rewrite Hread. repeat split.
    + rewrite Habsent. destruct (getItem_rejects o); repeat split.
Qed.

Lemma restore_on_start_witness :
  gateView (exec (loadToken Samples.healthy) (initial Samples.storeAbc))
    = Children {| accessToken := "abc123"; displayName := None;
                  givenName := None; surname := None |} /\
  gateView (exec (loadToken Samples.healthy) (initial ∅)) = SignInRequired /\
  gateView (exec (loadToken Samples.storeBroken) (initial Samples.storeAbc))
    = SignInRequired.
Proof.
  split; [|split].
  - destruct (restore_on_start Samples.healthy Samples.storeAbc)
      as (_ & _ & _ & A & _).
    apply (A "abc123"); [reflexivity|reflexivity|discriminate].
  - destruct (restore_on_start Samples.healthy ∅) as (_ & _ & _ & _ & B).
    apply B. right. reflexivity.
  - destruct (restore_on_start Samples.storeBroken Samples.storeAbc)
      as (_ & _ & _ & _ & B).
    apply B. left. reflexivity.
Defined.

(** A stored token "abc123": the load ends in the session with that token
    alone, and the only call made is the read of the store. *)
Example restore_abc123 :
  loadToken Samples.healthy (initial Samples.storeAbc)
  = (Ret tt,
     {| authState := Some {| accessToken := "abc123"; displayName := None;
                             givenName := None; surname := None |};
        loading := false; autoStarted := false;
        secureStore := Samples.storeAbc;
        trace := [GetItem "accessToken"] |}).
Proof. rewrite loadToken_summary. reflexivity. Qed.

(** Case analysis on everything the oracle and the inputs decide. *)
Ltac oracle_cases :=
  repeat (cbn [fst snd authState loading autoStarted secureStore trace];
          match goal with
          | |- context [match ?x with _ => _ end] =>
              lazymatch x with
              | context [match _ with _ => _ end] => fail
              | _ => destruct x eqn:?
              end
          end);
  cbn [fst snd authState loading autoStarted secureStore trace].

(** What the response effect may do to the state cells: nothing, or a
    session whose token passed the truthiness test together with a write
    of that token to the store. *)
Lemma handleResponse_cells (cfg : Config) (o : Oracle)
    (response : option AuthSessionResult) (discovery : option DiscoveryDocument)
    (uri : string) (request : option AuthRequest) (w : World) :
  let w' := exec (handleResponse cfg o response discovery uri request) w in
  result (handleResponse cfg o response discovery uri request) w = Ret tt /\
  loading w' = loading w /\
  autoStarted w' = autoStarted w /\
  ((authState w' = authState w /\ secureStore w' = secureStore w) \/
   (exists tr t dn gn sn,
      exchange_result o = Ret tr /\
      JS.truthy (tr_accessToken tr) = Some t /\
      authState w' = Some {| accessToken := t; displayName := dn;
                             givenName := gn; surname := sn |} /\
      secureStore w' = <["accessToken" := t]> (secureStore w))).
Proof.
  intros w'. subst w'. unfold_eff. oracle_cases;
    cbn [fst snd authState loading autoStarted secureStore trace];
    repeat split; try (left; split; reflexivity); try discriminate.
  all: right; repeat eexists; eassumption.
Qed.

Section Exchange.
Variables (cfg : Config) (o : Oracle) (code uri : string)
          (d : DiscoveryDocument) (request : option AuthRequest)
          (tr : TokenResponse) (t : string).
Hypothesis Hexchange : exchange_result o = Ret tr.
Hypothesis Htoken : JS.truthy (tr_accessToken tr) = Some t.

(** The profile request is answered with a JSON object and the store
    accepts the write: the session is entered. *)
Lemma exchange_profile_object (w : World) (st : nat) (fields : gmap string string) :
  me_result o = Ret {| status := st; body := Some (JObject fields) |} ->
  setItem_rejects o = false ->
  handleResponse cfg o (Some (Success code)) (Some d) uri request w =
  (Ret tt,
   {| authState :=
        Some {| accessToken := t;
                displayName := fields !! "displayName";
                givenName := fields !! "givenName";
                surname := fields !! "surname" |};
      loading := loading w;
      autoStarted := autoStarted w;
      secureStore := <["accessToken" := t]> (secureStore w);
      trace :=
        trace w ++
          [exchangeEvent cfg code uri request; profileEvent t;
           ConsoleLog [Some "Signed in as:"; fields !! "givenName";
                       fields !! "surname"];
           SetItem "accessToken" t] |}).
Proof.
  intros Hme Hset. unfold_eff.
  rewrite Hexchange. cbn [fst snd]. rewrite Htoken, Hme.
  cbn [body]. rewrite Hset.
  cbn [fst snd authState loading autoStarted secureStore trace].
  rewrite <- !app_assoc. reflexivity.
Qed.

(** The profile request raises, or its body cannot be parsed: the catch
    clause logs the error and nothing else happens. *)
Lemma exchange_profile_throws (w : World) (e : JS.exn) :
  me_result o = Throw e \/
  (e = JS.SyntaxError /\
   exists st, me_result o = Ret {| status := st; body := None |}) ->
  handleResponse cfg o (Some (Success code)) (Some d) uri request w =
  (Ret tt,
   {| authState := authState w;
      loading := loading w;
      autoStarted := autoStarted w;
      secureStore := secureStore w;
      trace :=
        trace w ++
          [exchangeEvent cfg code uri request; profileEvent t;
           exchangeWarning e] |}).
Proof.
  intros Hme. unfold_eff.
  rewrite Hexchange. cbn [fst snd]. rewrite Htoken.
  destruct Hme as [Hme|(-> & st & Hme)]; rewrite Hme;
    cbn [body fst snd authState loading autoStarted secureStore trace];
    rewrite <- !app_assoc; reflexivity.
Qed.

End Exchange.

(** C1, as the claim states it, fails: the exchange yields "tok1", the
    profile request gets no response, and the sign-in does not go through:
    no session is entered and no token is stored. *)
Lemma profile_failure_counterexample :
  let w' :=
    exec (handleResponse Samples.cfg Samples.profileDown
            (Some (Success "code")) (Some Samples.discovery)
            Samples.redirect (Some Samples.request))
         Samples.signedOut in
  exchange_result Samples.profileDown = Ret {| tr_accessToken := Some "tok1" |} /\
  me_result Samples.profileDown = Throw JS.NetworkError /\
  authState w' <> Some {| accessToken := "tok1"; displayName := None;
                          givenName := None; surname := None |} /\
  secureStore w' !! "accessToken" <> Some "tok1" /\
  gateView w' = SignInRequired.
Proof.
  split; [reflexivity|]. split; [reflexivity|].
  split; [|split]; vm_compute; try discriminate. reflexivity.
Qed.

(** C1, amended.  After an exchange that yields a non-empty token the
    effect never throws.  When the profile request is answered with a JSON
    object (whatever the status) and the store accepts the write, the
    session carries the token and the fields the object has, the token is
    stored and the gate shows the application; an object without the three
    fields gives the token-only session.  When the profile request raises
    or its body cannot be parsed, the error is logged, the session and the
    store are left as they were. *)
Theorem profile_fetch_outcomes (cfg : Config) (o : Oracle) (code uri : string)
    (d : DiscoveryDocument) (request : option AuthRequest)
    (tr : TokenResponse) (t : string) (w : World) :
  exchange_result o = Ret tr ->
  JS.truthy (tr_accessToken tr) = Some t ->
  let effect := handleResponse cfg o (Some (Success code)) (Some d) uri request in
  let w' := exec effect w in
  result effect w = Ret tt /\
  (forall st fields,
     me_result o = Ret {| status := st; body := Some (JObject fields) |} ->
     setItem_rejects o = false ->
     authState w' =
       Some {| accessToken := t;
               displayName := fields !! "displayName";
               givenName := fields !! "givenName";
               surname := fields !! "surname" |} /\
     secureStore w' !! "accessToken" = Some t /\
     (loading w = false ->
      fields !! "displayName" = None -> fields !! "givenName" = None ->
      fields !! "surname" = None ->
      gateView w' = Children {| accessToken := t; displayName := None;
                                givenName := None; surname := None |})) /\
  (forall e,
     me_result o = Throw e \/
     (e = JS.SyntaxError /\
      exists st, me_result o = Ret {| status := st; body := None |}) ->
     authState w' = authState w /\
     secureStore w' = secureStore w /\
     trace w' = trace w ++ [exchangeEvent cfg code uri request;
                            profileEvent t; exchangeWarning e]).
Proof.
  intros Hex Htok effect w'. subst w' effect.
  split; [apply handleResponse_cells|]. split.
  - intros st fields Hme Hset. unfold exec.
    rewrite (exchange_profile_object cfg o code uri d request tr t Hex Htok
               w st fields Hme Hset).
    cbn [snd authState secureStore]. split; [reflexivity|].
    split; [apply lookup_insert_eq|].
    intros Hl Hd Hg Hs. unfold gateView. cbn [loading authState].
    rewrite Hl, Hd, Hg, Hs. reflexivity.
  - intros e Hme. unfold exec.
    rewrite (exchange_profile_throws cfg o code uri d request tr t Hex Htok
               w e Hme).
    cbn [snd authState secureStore trace]. repeat split.
Qed.

Lemma profile_fetch_outcomes_witness :
  gateView
    (exec (handleResponse Samples.cfg Samples.profileDenied
             (Some (Success "code")) (Some Samples.discovery)
             Samples.redirect (Some Samples.request))
          Samples.signedOut)
  = Children {| accessToken := "tok1"; displayName := None;
                givenName := None; surname := None |} /\
  authState
    (exec (handleResponse Samples.cfg Samples.profileDown
             (Some (Success "code")) (Some Samples.discovery)
             Samples.redirect (Some Samples.request))
          Samples.signedOut)
  = None.
Proof.
  split.
  - destruct (profile_fetch_outcomes Samples.cfg Samples.profileDenied
                "code" Samples.redirect Samples.discovery
                (Some Samples.request) {| tr_accessToken := Some "tok1" |}
                "tok1" Samples.signedOut eq_refl eq_refl) as (_ & A & _).
    destruct (A 401 ∅ eq_refl eq_refl) as (_ & _ & B).
    apply B; reflexivity.
  - destruct (profile_fetch_outcomes Samples.cfg Samples.profileDown
                "code" Samples.redirect Samples.discovery
                (Some Samples.request) {| tr_accessToken := Some "tok1" |}
                "tok1" Samples.signedOut eq_refl eq_refl) as (_ & _ & A).
    destruct (A JS.NetworkError) as (B & _); [left; reflexivity|].
    exact B.
Defined.

(** C6. An empty or absent access token never makes a session.  At
    startup a stored token that is empty or absent leaves the gate on the
    sign-in view, with the same session, flags and trace as a store without
    the key.  After an exchange whose token is empty or absent the session
    and the store are what they were, and neither the profile request nor a
    store write is made.  Along every run of the process, a session that
    exists has a non-empty token. *)
Theorem empty_token_is_no_session (cfg : Config) :
  (forall o store,
     store !! "accessToken" = None \/ store !! "accessToken" = Some "" ->
     let w' := exec (loadToken o) (initial store) in
     let w0 := exec (loadToken o) (initial (delete "accessToken" store)) in
     gateView w' = SignInRequired /\
     authState w' = authState w0 /\ loading w' = loading w0 /\
     trace w' = trace w0) /\
  (forall o code d uri request tr w,
     exchange_result o = Ret tr ->
     tr_accessToken tr = None \/ tr_accessToken tr = Some "" ->
     let w' := exec (handleResponse cfg o (Some (Success code)) (Some d)
                       uri request) w in
     authState w' = authState w /\
     secureStore w' = secureStore w /\
     trace w' = trace w ++ [exchangeEvent cfg code uri request]) /\
  (forall acts store a,
     authState (run cfg acts (initial store)) = Some a ->
     accessToken a <> "").
Proof.
  split; [|split].
  - intros o store Hempty w' w0. subst w' w0. unfold exec.
    rewrite !loadToken_summary. unfold gateView.
    cbn [snd authState loading trace secureStore initial].
    rewrite lookup_delete_eq. apply truthy_none in Hempty. rewrite Hempty.
    cbn [JS.truthy]. destruct (getItem_rejects o); repeat split.
  - intros o code d uri request tr w Hex Hempty w'. subst w'.
    apply truthy_none in Hempty. unfold_eff.
    rewrite Hex. cbn [fst snd]. rewrite Hempty.
    cbn [fst snd authState secureStore trace]. repeat split.
  - intros acts store.
    assert (Hinv : forall w,
               (forall a, authState w = Some a -> accessToken a <> "") ->
               forall a, authState (run cfg acts w) = Some a ->
                         accessToken a <> "").
    { induction acts as [|act rest IH]; intros w Hw; [exact Hw|].
      cbn [run]. apply IH. intros a.
      destruct act; cbn [step].
      - unfold exec. rewrite loadToken_summary. cbn [snd authState].
        destruct (getItem_rejects o); [apply Hw|].
        destruct (JS.truthy (secureStore w !! "accessToken")) as [t|] eqn:E;
          [|apply Hw].
        intros [= <-]. cbn. apply (truthy_some _ _ E).
      - unfold_eff. cbn. apply Hw.
      - unfold_eff. oracle_cases; apply Hw.
      - destruct (handleResponse_cells cfg o response discovery redirectUri
                    request w) as (_ & _ & _ & [[E _]|Hset]).
        + rewrite E. apply Hw.
        + destruct Hset as (tr & t & dn & gn & sn & _ & Ht & E & _).
          rewrite E. intros [= <-]. cbn. apply (truthy_some _ _ Ht).
      - unfold_eff. oracle_cases; apply Hw.
      - unfold_eff. oracle_cases; discriminate. }
    apply Hinv. intros a. cbn. discriminate.
Qed.

Lemma empty_token_is_no_session_witness :
  gateView (exec (loadToken Samples.healthy) (initial Samples.storeBlank))
    = SignInRequired /\
  authState
    (exec (handleResponse Samples.cfg Samples.emptyToken
             (Some (Success "code")) (Some Samples.discovery)
             Samples.redirect (Some Samples.request))
          Samples.signedOut)
    = None /\
  accessToken
    {| accessToken := "tok1"; displayName := Some "Ada Lovelace";
       givenName := Some "Ada"; surname := Some "Lovelace" |} <> "".
Proof.
  destruct (empty_token_is_no_session Samples.cfg) as (A & B & C).
  split; [|split].
  - apply (A Samples.healthy Samples.storeBlank). right. reflexivity.
  - apply (B Samples.emptyToken "code" Samples.discovery Samples.redirect
             (Some Samples.request) {| tr_accessToken := Some "" |}
             Samples.signedOut); [reflexivity|right; reflexivity].
  - apply (C [LoadToken Samples.healthy;
              HandleResponse Samples.healthy (Some (Success "code"))
                (Some Samples.discovery) Samples.redirect
                (Some Samples.request)]
             ∅).
    reflexivity.
Defined.

(** The sign-out, written out. *)
Lemma signOut_summary (o : Oracle) (w : World) :
  signOut o w =
  (if deleteItem_rejects o then Throw JS.StorageError else Ret tt,
   {| authState := None;
      loading := loading w;
      autoStarted := autoStarted w;
      secureStore :=
        if deleteItem_rejects o then secureStore w
        else delete "accessToken" (secureStore w);
      trace := trace w ++ [DeleteItem "accessToken"] |}).
Proof.
  unfold_eff. cbn [fst snd authState loading autoStarted secureStore trace].
  destruct (deleteItem_rejects o); reflexivity.
Qed.

(** C9, as the claim states it, fails: when the store rejects the delete,
    the rejection is not swallowed but is the outcome of [signOut], and
    the stored token stays. *)
Lemma signOut_swallow_counterexample :
  deleteItem_rejects Samples.storeBroken = true /\
  result (signOut Samples.storeBroken) Samples.signedIn <> Ret tt /\
  result (signOut Samples.storeBroken) Samples.signedIn
    = Throw JS.StorageError /\
  secureStore (exec (signOut Samples.storeBroken) Samples.signedIn)
    !! "accessToken" = Some "abc123".
Proof.
  split; [reflexivity|]. split; [|split]; vm_compute;
    [discriminate|reflexivity|reflexivity].
Qed.

(** C9, amended.  Sign-out always removes the in-memory session, whether
    or not the store can be wiped: the session is cleared before the delete
    is attempted, and the gate leaves the application.  An error of the
    delete is not swallowed: it is the outcome of [signOut], and the stored
    token then stays; otherwise the key is removed. *)
Theorem signOut_outcome (o : Oracle) (w : World) :
  let w' := exec (signOut o) w in
  authState w' = None /\
  gateView w' = (if loading w then CheckingSession else SignInRequired) /\
  autoStarted w' = autoStarted w /\
  result (signOut o) w
    = (if deleteItem_rejects o then Throw JS.StorageError else Ret tt) /\
  secureStore w'
    = (if deleteItem_rejects o then secureStore w
       else delete "accessToken" (secureStore w)).
Proof.
  intros w'. subst w'. unfold exec, result. rewrite signOut_summary.
  unfold gateView. cbn [fst snd authState loading autoStarted secureStore].
  repeat split.
Qed.

(** C5, as the claim states it, fails: with neither identifier
    configured the first render does not fail, and it asks for discovery
    at the placeholder issuer. *)
Lemma missing_config_counterexample :
  let r := renderHooks Samples.cfgAbsent Samples.redirect (initial ∅) in
  ~ (exists e, fst r = Throw e) /\
  fst r = Ret tt /\
  In (AutoDiscovery "undefined") (trace (snd r)) /\
  ~ Forall (fun ev => is_network ev = false) (trace (snd r)).
Proof.
  vm_compute. split; [|split; [|split]].
  - intros [e H]. discriminate.
  - reflexivity.
  - left. reflexivity.
  - intros H. inversion H. discriminate.
Qed.

(** C5, amended.  A render never fails on the configuration.  It asks
    for discovery at [issuer cfg] and builds the request with
    [clientId cfg]; an absent (or empty) tenant identifier gives the
    placeholder issuer "undefined", an absent client identifier gives the
    empty client id, and that empty id is what a later token exchange
    sends. *)
Theorem missing_config_deferred (cfg : Config) (uri : string) (w : World) :
  result (renderHooks cfg uri) w = Ret tt /\
  trace (exec (renderHooks cfg uri) w)
    = trace w ++ [AutoDiscovery (issuer cfg);
                  ConsoleLog [Some "Redirect URI used by app:"; Some uri];
                  UseAuthRequest (clientId cfg) scopes uri] /\
  (TENANT_ID cfg = None \/ TENANT_ID cfg = Some "" ->
   issuer cfg = "undefined") /\
  (CLIENT_ID cfg = None ->
   clientId cfg = "" /\
   forall o code d request w0,
     In (ExchangeCode "" code uri (JS.or_else (request ≫= codeVerifier) ""))
        (trace (exec (handleResponse cfg o (Some (Success code)) (Some d)
                        uri request) w0))).
Proof.
  split; [reflexivity|]. split; [|split].
  - unfold_eff. cbn [snd trace]. rewrite <- !app_assoc. reflexivity.
  - intros H. apply truthy_none in H. unfold issuer. rewrite H. reflexivity.
  - intros H. assert (Hc : clientId cfg = "") by (unfold clientId; rewrite H; reflexivity).
    split; [exact Hc|].
    intros o code d request w0. unfold_eff. rewrite Hc.
    oracle_cases; rewrite ?in_app_iff; cbn [In]; auto 20.
Qed.

Lemma missing_config_deferred_witness :
  issuer Samples.cfgAbsent = "undefined" /\ clientId Samples.cfgAbsent = "".
Proof.
  destruct (missing_config_deferred Samples.cfgAbsent Samples.redirect
              (initial ∅)) as (_ & _ & A & B).
  split; [apply A; left; reflexivity|apply B; reflexivity].
Defined.

(** *** The one-shot automatic sign-in *)

Lemma gateEffect_idle (o : Oracle) (request : option AuthRequest) (w : World) :
  gateGuard w = false -> gateEffect o request w = (Ret tt, w).
Proof. intros H. unfold gateEffect, bind, get. rewrite H. reflexivity. Qed.

(** When the guard holds the effect sets the flag and calls [signIn]
    once: the prompt is shown if the request is ready, otherwise only the
    warning is printed. *)
Lemma gateEffect_fires (o : Oracle) (request : option AuthRequest) (w : World) :
  gateGuard w = true ->
  gateEffect o request w =
  (Ret tt,
   {| authState := authState w;
      loading := loading w;
      autoStarted := true;
      secureStore := secureStore w;
      trace :=
        trace w ++
          match request with
          | None => [ConsoleWarn "[Auth] Auth request not ready yet" None]
          | Some _ =>
              PromptAsync ::
              (if prompt_rejects o
               then [ConsoleWarn "[Auth] Auto sign-in error:"
                       (Some JS.PromptError)]
               else [])
          end |}).
Proof.
  intros H. unfold_eff. rewrite H.
  destruct request as [r|];
    cbn [fst snd authState loading autoStarted secureStore trace];
    [|reflexivity].
  destruct (prompt_rejects o);
    cbn [fst snd authState loading autoStarted secureStore trace];
    [rewrite <- app_assoc|]; reflexivity.
Qed.

(** The flag is only ever set, and only by a gate effect whose guard held. *)
Lemma step_autoStarted (cfg : Config) (a : action) (w : World) :
  autoStarted (exec (step cfg a) w)
  = autoStarted w
    || match a with GateEffect _ _ => gateGuard w | _ => false end.
Proof.
  destruct a; cbn [step].
  - unfold exec. rewrite loadToken_summary. cbn. apply eq_sym, orb_false_r.
  - unfold_eff. cbn. apply eq_sym, orb_false_r.
  - destruct (gateGuard w) eqn:G; unfold exec.
    + rewrite (gateEffect_fires o request w G). cbn. apply eq_sym, orb_true_r.
    + rewrite (gateEffect_idle o request w G). cbn. apply eq_sym, orb_false_r.
  - destruct (handleResponse_cells cfg o response discovery redirectUri
                request w) as (_ & _ & E & _).
    rewrite E. apply eq_sym, orb_false_r.
  - unfold_eff. oracle_cases; apply eq_sym, orb_false_r.
  - unfold exec. rewrite signOut_summary. cbn. apply eq_sym, orb_false_r.
Qed.

Lemma gateGuard_started (w : World) : autoStarted w = true -> gateGuard w = false.
Proof. intros H. unfold gateGuard. rewrite H. apply andb_false_r. Qed.

Lemma autoSignIns_started (cfg : Config) (acts : list action) :
  forall w,
    autoStarted w = true ->
    autoSignIns cfg acts w = 0 /\ autoStarted (run cfg acts w) = true.
Proof.
  induction acts as [|a rest IH]; intros w H; cbn [autoSignIns run].
  - split; [reflexivity|exact H].
  - assert (H' : autoStarted (exec (step cfg a) w) = true)
      by (rewrite step_autoStarted, H; reflexivity).
    destruct (IH _ H') as [C R]. rewrite C, (gateGuard_started w H).
    split; [destruct a; reflexivity|exact R].
Qed.

Lemma autoSignIns_le (cfg : Config) (acts : list action) :
  forall w, autoSignIns cfg acts w <= 1.
Proof.
  induction acts as [|a rest IH]; intros w; cbn [autoSignIns]; [lia|].
  pose proof (IH (exec (step cfg a) w)) as Hrest.
  destruct a; try (cbn [Nat.add]; exact Hrest).
  destruct (gateGuard w) eqn:G; [|exact Hrest].
  assert (H' : autoStarted (exec (step cfg (GateEffect o request)) w) = true)
    by (rewrite step_autoStarted, G; apply orb_true_r).
  rewrite (proj1 (autoSignIns_started cfg rest _ H')). lia.
Qed.

Lemma prompts_app (a b : list event) :
  Process.prompts (a ++ b) = Process.prompts a + Process.prompts b.
Proof.
  induction a as [|ev a IH]; [reflexivity|].
  cbn [app Process.prompts]. destruct ev; rewrite IH; reflexivity.
Qed.








End LayoutSpec.

(** * Properties of the queue, camera and picker handlers *)

Module HandlersSpec.
Import Http HomeScreen Handlers HomeScreenSpec.
Local Open Scope list_scope.
Local Open Scope nat_scope.

(** A callback that accepts every index from [i] on keeps the array. *)
Lemma filterFrom_keep {A} (p : A -> nat -> bool) (a : list A) :
  forall i, (forall x j, i <= j -> p x j = true) -> filterFrom p i a = a.
Proof.
  induction a as [|x rest IH]; intros i H; cbn [filterFrom]; [reflexivity|].
  rewrite (H x i (le_n i)), IH; [reflexivity|].
  intros y j Hj. apply H. lia.
Qed.

(** Rejecting one index removes the element at that position. *)
Lemma filterFrom_skip {A} (a : list A) :
  forall i k,
    filterFrom (fun _ j => negb (j =? i + k)) i a = take k a ++ drop (S k) a.
Proof.
  induction a as [|x rest IH]; intros i k; cbn [filterFrom].
  - rewrite take_nil, drop_nil. reflexivity.
  - destruct k as [|k].
    + rewrite Nat.add_0_r, Nat.eqb_refl. cbn [negb take drop app].
      rewrite drop_0. apply filterFrom_keep.
      intros y j Hj. destruct (Nat.eqb_spec j i); [lia|reflexivity].
    + destruct (Nat.eqb_spec i (i + S k)) as [E|_]; [lia|].
      cbn [negb take drop app]. f_equal.
      rewrite <- (IH (S i) k). f_equal.
      replace (S i + k) with (i + S k) by lia. reflexivity.
Qed.

(** [handleRemoveAt], written out. *)
Lemma removeAt_outcome_eq (index : nat) (w : World) :
  handleRemoveAt index w =
  (Ret tt,
   {| selectedImages :=
        take index (selectedImages w) ++ drop (S index) (selectedImages w);
      isUploading := isUploading w;
      uploadStatus := None;
      successCount := successCount w;
      trace := trace w |}).
Proof.
  unfold handleRemoveAt, updateSelectedImages, setSelectedImages,
    setUploadStatus, bind, get, modify, filterIndexed.
  cbn [selectedImages isUploading uploadStatus successCount trace].
  pose proof (filterFrom_skip (selectedImages w) 0 index) as F.
  cbn [Nat.add] in F. rewrite F. reflexivity.
Qed.

(** X1. [handleRemoveAt] removes exactly the element at the given position
    and keeps the others in order; an index past the end leaves the queue as
    it is.  In both cases the status message is cleared and nothing else is
    touched. *)
Theorem removeAt_outcome (index : nat) (w : World) :
  let q := selectedImages w in
  let w' := exec (handleRemoveAt index) w in
  handleRemoveAt index w =
    (Ret tt,
     {| selectedImages := take index q ++ drop (S index) q;
        isUploading := isUploading w;
        uploadStatus := None;
        successCount := successCount w;
        trace := trace w |}) /\
  (length q <= index -> selectedImages w' = q) /\
  (index < length q -> length (selectedImages w') + 1 = length q) /\
  (forall j, j < index -> selectedImages w' !! j = q !! j) /\
  (forall j, index <= j -> selectedImages w' !! j = q !! (S j)).
Proof.
  intros q w'.
  assert (E : handleRemoveAt index w =
              (Ret tt,
               {| selectedImages := take index q ++ drop (S index) q;
                  isUploading := isUploading w;
                  uploadStatus := None;
                  successCount := successCount w;
                  trace := trace w |})).
  { unfold handleRemoveAt, updateSelectedImages, setSelectedImages,
      setUploadStatus, bind, get, modify, filterIndexed.
    cbn [selectedImages isUploading uploadStatus successCount trace].
    pose proof (filterFrom_skip (selectedImages w) 0 index) as F.
    cbn [Nat.add] in F. rewrite F. reflexivity. }
  split; [exact E|].
  subst w'. unfold exec. rewrite E. cbn [snd selectedImages].
  split; [|split; [|split]].
  - intros H. rewrite take_ge, drop_ge by lia. apply app_nil_r.
  - intros H. rewrite <- delete_take_drop.
    rewrite length_delete by (apply lookup_lt_is_Some_2; exact H).
    destruct (length q); lia.
  - intros j Hj. rewrite <- delete_take_drop.
    apply list_lookup_delete_lt. exact Hj.
  - intros j Hj. rewrite <- delete_take_drop.
    apply list_lookup_delete_ge. exact Hj.
Qed.

Lemma removeAt_outcome_witness :
  selectedImages
    (exec (handleRemoveAt 5) (Samples.home [Samples.photoA; Samples.photoB]))
  = [Samples.photoA; Samples.photoB] /\
  length (selectedImages
            (exec (handleRemoveAt 0)
               (Samples.home [Samples.photoA; Samples.photoB]))) + 1 = 2.
Proof.
  destruct (removeAt_outcome 5 (Samples.home [Samples.photoA; Samples.photoB]))
    as (_ & A & _).
  destruct (removeAt_outcome 0 (Samples.home [Samples.photoA; Samples.photoB]))
    as (_ & _ & B & _).
  split; [apply A; cbn; lia|apply B; cbn; lia].
Defined.

Ltac unfold_screen :=
  unfold exec, result, handleTakePicture, handlePickFromFiles,
    handleToggleCamera, handleToggleFlash, liftHome, updateSelectedImages,
    emitCall, setSelectedImages, setUploadStatus,
    try_catch, bind, ret, get, modify, settle.

Ltac screen_cells :=
  cbn [fst snd home facing flash calls selectedImages isUploading
       uploadStatus successCount trace].

(** X2. Without a mounted camera or without a granted permission
    [handleTakePicture] does nothing: the camera is not called and the
    screen is left as it was. *)
Theorem takePicture_guarded (dev : Device) (s : Screen) :
  cameraMounted dev = false \/ permissionGranted dev = false ->
  handleTakePicture dev s = (Ret tt, s).
Proof.
  intros [H|H]; unfold handleTakePicture; rewrite H;
    [|rewrite orb_true_r]; reflexivity.
Qed.

Lemma takePicture_guarded_witness :
  handleTakePicture MoreSamples.refused (MoreSamples.screen [Samples.photoA])
  = (Ret tt, MoreSamples.screen [Samples.photoA]).
Proof.
  apply takePicture_guarded. right. reflexivity.
Defined.

(** [handleTakePicture] past its guard, written out. *)
Lemma takePicture_summary (dev : Device) (s : Screen) :
  cameraMounted dev = true ->
  permissionGranted dev = true ->
  handleTakePicture dev s =
  (Ret tt,
   match capture dev with
   | Ret photo =>
       match JS.truthy (photo_uri <$> photo) with
       | Some uri =>
           {| home :=
                {| selectedImages := selectedImages (home s) ++ [uri];
                   isUploading := isUploading (home s);
                   uploadStatus := None;
                   successCount := successCount (home s);
                   trace := trace (home s) |};
              facing := facing s; flash := flash s;
              calls := calls s ++ [TakePicture] |}
       | None =>
           {| home := home s; facing := facing s; flash := flash s;
              calls := calls s ++ [TakePicture] |}
       end
   | Throw e =>
       {| home := home s; facing := facing s; flash := flash s;
          calls := calls s ++ [TakePicture; WarnTakePicture e] |}
   end).
Proof.
  intros Hm Hp. unfold_screen. rewrite Hm, Hp. cbn [negb orb]. screen_cells.
  destruct (capture dev) as [photo|e]; screen_cells.
  - destruct (JS.truthy (photo_uri <$> photo)); screen_cells; reflexivity.
  - rewrite <- app_assoc. reflexivity.
Qed.

(** X3. With the camera mounted and permitted, [handleTakePicture] never
    throws and calls the camera once.  A photo with a non-empty uri is
    appended at the end of the queue and the status message is cleared; no
    photo, or an empty uri, leaves the upload cells as they were, status
    included; a capture that rejects is logged and leaves them as they were. *)
Theorem takePicture_outcomes (dev : Device) (s : Screen) :
  cameraMounted dev = true ->
  permissionGranted dev = true ->
  let s' := exec (handleTakePicture dev) s in
  result (handleTakePicture dev) s = Ret tt /\
  (forall p,
     capture dev = Ret (Some p) -> photo_uri p <> "" ->
     selectedImages (home s') = selectedImages (home s) ++ [photo_uri p] /\
     uploadStatus (home s') = None /\
     isUploading (home s') = isUploading (home s) /\
     calls s' = calls s ++ [TakePicture]) /\
  (capture dev = Ret None \/ capture dev = Ret (Some {| photo_uri := "" |}) ->
   home s' = home s /\ calls s' = calls s ++ [TakePicture]) /\
  (forall e,
     capture dev = Throw e ->
     home s' = home s /\
     calls s' = calls s ++ [TakePicture; WarnTakePicture e]).
Proof.
  intros Hm Hp s'. subst s'. unfold exec, result.
  rewrite (takePicture_summary dev s Hm Hp). cbn [fst snd].
  split; [reflexivity|]. split; [|split].
  - intros p Hc Hne. rewrite Hc. cbn [fmap option_fmap option_map].
    rewrite (LayoutSpec.truthy_present _ Hne). screen_cells. repeat split.
  - intros [Hc|Hc]; rewrite Hc; cbn; split; reflexivity.
  - intros e Hc. rewrite Hc. split; reflexivity.
Qed.

Lemma takePicture_outcomes_witness :
  selectedImages
    (home (exec (handleTakePicture MoreSamples.ready)
             (MoreSamples.screen [Samples.photoA])))
  = [Samples.photoA; Samples.photoC].
Proof.
  destruct (takePicture_outcomes MoreSamples.ready
              (MoreSamples.screen [Samples.photoA]) eq_refl eq_refl)
    as (_ & A & _).
  destruct (A {| photo_uri := Samples.photoC |} eq_refl) as (B & _);
    [discriminate|].
  exact B.
Defined.

(** [handlePickFromFiles], written out. *)
Lemma pickFromFiles_summary (dev : Device) (s : Screen) :
  handlePickFromFiles dev s =
  (Ret tt,
   match pick dev with
   | Ret r =>
       match assets r with
       | Some picked =>
           if negb (canceled r) && (0 <? length picked) then
             {| home :=
                  {| selectedImages :=
                       selectedImages (home s) ++ map asset_uri picked;
                     isUploading := isUploading (home s);
                     uploadStatus := None;
                     successCount := successCount (home s);
                     trace := trace (home s) |};
                facing := facing s; flash := flash s;
                calls := calls s ++ [LaunchImageLibrary] |}
           else
             {| home := home s; facing := facing s; flash := flash s;
                calls := calls s ++ [LaunchImageLibrary] |}
       | None =>
           {| home := home s; facing := facing s; flash := flash s;
              calls := calls s ++ [LaunchImageLibrary] |}
       end
   | Throw e =>
       {| home := home s; facing := facing s; flash := flash s;
          calls := calls s ++ [LaunchImageLibrary; WarnPickImage e] |}
   end).
Proof.
  unfold_screen. screen_cells.
  destruct (pick dev) as [r|e]; screen_cells.
  - destruct (assets r) as [picked|]; [|reflexivity].
    destruct (negb (canceled r) && (0 <? length picked)); reflexivity.
  - rewrite <- app_assoc. reflexivity.
Qed.

(** X4. [handlePickFromFiles] never throws and opens the picker once.  A
    selection that was not cancelled and holds at least one asset is appended
    to the queue in the picker's order, repeated uris included, and the
    status message is cleared; a cancelled, missing or empty selection leaves
    the upload cells as they were; a picker that rejects is logged and leaves
    them as they were. *)
Theorem pickFromFiles_outcomes (dev : Device) (s : Screen) :
  let s' := exec (handlePickFromFiles dev) s in
  result (handlePickFromFiles dev) s = Ret tt /\
  (forall r picked,
     pick dev = Ret r -> canceled r = false -> assets r = Some picked ->
     picked <> [] ->
     selectedImages (home s')
       = selectedImages (home s) ++ map asset_uri picked /\
     length (selectedImages (home s'))
       = length (selectedImages (home s)) + length picked /\
     uploadStatus (home s') = None /\
     calls s' = calls s ++ [LaunchImageLibrary]) /\
  (forall r,
     pick dev = Ret r ->
     canceled r = true \/ assets r = None \/ assets r = Some [] ->
     home s' = home s /\ calls s' = calls s ++ [LaunchImageLibrary]) /\
  (forall e,
     pick dev = Throw e ->
     home s' = home s /\
     calls s' = calls s ++ [LaunchImageLibrary; WarnPickImage e]).
Proof.
  intros s'. subst s'. unfold exec, result.
  rewrite pickFromFiles_summary. cbn [fst snd].
  split; [reflexivity|]. split; [|split].
  - intros r picked Hp Hc Ha Hne. rewrite Hp, Ha, Hc.
    destruct picked as [|x rest]; [congruence|].
    cbn [negb andb length Nat.ltb Nat.leb]. screen_cells.
    split; [reflexivity|]. split; [|split; reflexivity].
    rewrite length_app, length_map. reflexivity.
  - intros r Hp H. rewrite Hp.
    destruct (assets r) as [picked|]; [|split; reflexivity].
    destruct H as [H|[H|H]].
    + rewrite H. cbn [negb andb]. split; reflexivity.
    + discriminate.
    + injection H as ->. rewrite andb_false_r. split; reflexivity.
  - intros e Hp. rewrite Hp. split; reflexivity.
Qed.

Lemma pickFromFiles_outcomes_witness :
  selectedImages
    (home (exec (handlePickFromFiles MoreSamples.ready)
             (MoreSamples.screen [Samples.photoA])))
  = [Samples.photoA; Samples.photoA; Samples.photoB] /\
  home (exec (handlePickFromFiles MoreSamples.refused)
          (MoreSamples.screen [Samples.photoA]))
  = Samples.home [Samples.photoA].
Proof.
  split.
  - destruct (pickFromFiles_outcomes MoreSamples.ready
                (MoreSamples.screen [Samples.photoA])) as (_ & A & _).
    destruct (A _ _ eq_refl eq_refl eq_refl) as (B & _); [discriminate|].
    exact B.
  - destruct (pickFromFiles_outcomes MoreSamples.refused
                (MoreSamples.screen [Samples.photoA])) as (_ & _ & A & _).
    destruct (A _ eq_refl) as (B & _); [left; reflexivity|].
    exact B.
Defined.

(** X5. Taking a picture and then removing the last thumbnail gives the
    queue back: the element removed at index [length q] is the photo that
    was just appended. *)
Theorem capture_then_remove_last (dev : Device) (s : Screen) (p : Photo) :
  cameraMounted dev = true ->
  permissionGranted dev = true ->
  capture dev = Ret (Some p) ->
  photo_uri p <> "" ->
  let q := selectedImages (home s) in
  let s1 := exec (handleTakePicture dev) s in
  let s2 := exec (liftHome (handleRemoveAt (length q))) s1 in
  selectedImages (home s1) !! length q = Some (photo_uri p) /\
  selectedImages (home s2) = q.
Proof.
  intros Hm Hp Hc Hne q s1 s2. subst s2 s1 q. unfold exec at 1 3.
  rewrite (takePicture_summary dev s Hm Hp), Hc.
  cbn [fmap option_fmap option_map].
  rewrite (LayoutSpec.truthy_present _ Hne). cbn [snd].
  split.
  - cbn [home selectedImages].
    rewrite lookup_app_r by lia. rewrite Nat.sub_diag. reflexivity.
  - unfold exec, liftHome.
    pose proof (removeAt_outcome_eq (length (selectedImages (home s)))
                {| selectedImages := selectedImages (home s) ++ [photo_uri p];
                   isUploading := isUploading (home s);
                   uploadStatus := None;
                   successCount := successCount (home s);
                   trace := trace (home s) |}) as E.
    cbn [home]. rewrite E. cbn [snd home selectedImages].
    rewrite take_app_length, drop_ge by (rewrite length_app; cbn; lia).
    apply app_nil_r.
Qed.

Lemma capture_then_remove_last_witness :
  selectedImages
    (home (exec (liftHome (handleRemoveAt 1))
             (exec (handleTakePicture MoreSamples.ready)
                (MoreSamples.screen [Samples.photoA]))))
  = [Samples.photoA].
Proof.
  apply (capture_then_remove_last MoreSamples.ready
           (MoreSamples.screen [Samples.photoA])
           {| photo_uri := Samples.photoC |});
    [reflexivity|reflexivity|reflexivity|discriminate].
Defined.

(** X6. The camera toggle is an involution that always changes the facing;
    the flash toggle runs through its three modes, so three presses return
    to the start and one or two presses never do.  Neither touches the
    upload cells or calls the device. *)
Theorem toggles_cycle (s : Screen) :
  let c := exec handleToggleCamera in
  let f := exec handleToggleFlash in
  c (c s) = s /\ facing (c s) <> facing s /\
  f (f (f s)) = s /\ flash (f s) <> flash s /\ flash (f (f s)) <> flash s /\
  home (c s) = home s /\ home (f s) = home s /\
  calls (c s) = calls s /\ calls (f s) = calls s.
Proof.
  destruct s as [h fc fl cs]. unfold_screen. cbn.
  destruct fc, fl; cbn; repeat split; discriminate.
Qed.

End HandlersSpec.


(** * Further properties of the batch upload *)

Module UploadSpec.
Import Http HomeScreen Handlers HomeScreenSpec.
Local Open Scope list_scope.
Local Open Scope nat_scope.

(** The loop posts a prefix of the items, in order. *)
Lemma loop_posts_prefix (o : Oracle) (items : list string) :
  forall i,
    exists n,
      n <= length items /\ (items <> [] -> 0 < n) /\
      posts (loopEvents o i items) = map (postOf o) (take n items).
Proof.
  induction items as [|uri rest IH]; intros i.
  - exists 0. split; [cbn; lia|]. split; [congruence|reflexivity].
  - cbn [loopEvents]. rewrite posts_cons_post.
    destruct (post_result o i) as [r|e].
    + destruct (IH (S i)) as (n & Hn & _ & P).
      exists (S n). cbn [length take map].
      split; [lia|]. split; [lia|].
      destruct (ok r); [|rewrite posts_cons_warn]; rewrite P; reflexivity.
    + exists 1. cbn [length take map]. rewrite take_0.
      split; [lia|]. split; [lia|reflexivity].
Qed.

(** X7. Whatever the network answers, the POSTs of one call are the first
    [n] items of the queue, in queue order and one per item, each sent to the
    upload URL under the last path segment of its uri; for a non-empty queue
    at least the first item is posted. *)
Theorem upload_posts_in_order (o : Oracle) (items : list string) (w : World) :
  let w' := exec (handleUploadAll o items) w in
  exists n,
    n <= length items /\ (items <> [] -> 0 < n) /\
    posts (emitted w w') = map (postOf o) (take n items) /\
    forall k uri,
      take n items !! k = Some uri ->
      posts (emitted w w') !! k
        = Some (Post BACKEND_UPLOAD_URL (filenameOf o uri) uri).
Proof.
  intros w'. subst w'.
  assert (H : exists n,
             n <= length items /\ (items <> [] -> 0 < n) /\
             posts (emitted w (exec (handleUploadAll o items) w))
               = map (postOf o) (take n items)).
  { destruct items as [|uri rest].
    - exists 0. split; [cbn; lia|]. split; [congruence|].
      unfold exec, emitted. cbn. rewrite drop_all. reflexivity.
    - destruct (handleUploadAll_fields o (uri :: rest) w)
        as (_ & _ & _ & _ & P & _); [discriminate|].
      rewrite P. apply loop_posts_prefix. }
  destruct H as (n & Hn & Hpos & P). exists n.
  split; [exact Hn|]. split; [exact Hpos|]. split; [exact P|].
  intros k uri Hk. rewrite P, list_lookup_fmap, Hk. reflexivity.
Qed.

Lemma upload_posts_in_order_witness :
  exists n,
    0 < n /\
    posts (emitted (Samples.home [Samples.photoA; Samples.photoB])
             (exec (handleUploadAll Samples.firstRejects
                      [Samples.photoA; Samples.photoB])
                (Samples.home [Samples.photoA; Samples.photoB])))
    = map (postOf Samples.firstRejects)
        (take n [Samples.photoA; Samples.photoB]).
Proof.
  destruct (upload_posts_in_order Samples.firstRejects
              [Samples.photoA; Samples.photoB]
              (Samples.home [Samples.photoA; Samples.photoB]))
    as (n & _ & Hpos & P & _).
  exists n. split; [apply Hpos; discriminate|exact P].
Defined.

(** With every POST answered, one success makes the count positive. *)
Lemma loopCount_pos (o : Oracle) (items : list string) :
  forall i,
    (forall k, k < length items -> rejects (post_result o (i + k)) = false) ->
    (exists k, k < length items /\ succeeds (post_result o (i + k)) = true) ->
    0 < loopCount o i items.
Proof.
  induction items as [|uri rest IH]; intros i Hresp (k & Hk & Hs);
    cbn [length] in *; [lia|].
  cbn [loopCount].
  apply (shift_tail o (fun r => rejects r = false)) in Hresp.
  destruct Hresp as [H0 Ht].
  destruct (post_result o i) as [r|e] eqn:E; [|discriminate].
  destruct (ok r) eqn:Eok; [lia|].
  destruct k as [|k].
  - rewrite Nat.add_0_r, E in Hs. cbn in Hs. congruence.
  - cbn [Nat.add]. apply (IH (S i) Ht). exists k.
    split; [lia|]. rewrite Nat.add_succ_r in Hs. exact Hs.
Qed.

(** X8. The status message after a call over a non-empty queue.  If every
    item succeeded it reports the number of items as uploaded.  If every POST
    was answered and none succeeded it is the all-failed message.  If every
    POST was answered, some succeeded and some did not, it reports the count
    of successes out of the number of items, and that count is strictly
    between the two. *)
Theorem upload_status_message (o : Oracle) (items : list string) (w : World) :
  items <> [] ->
  let w' := exec (handleUploadAll o items) w in
  ((forall k, k < length items -> succeeds (post_result o k) = true) ->
   uploadStatus w' = Some (msgAllUploaded (length items))) /\
  ((forall k, k < length items -> rejects (post_result o k) = false) ->
   (forall k, k < length items -> succeeds (post_result o k) = false) ->
   uploadStatus w' = Some msgAllFailed) /\
  ((forall k, k < length items -> rejects (post_result o k) = false) ->
   (exists k, k < length items /\ succeeds (post_result o k) = true) ->
   (exists k, k < length items /\ succeeds (post_result o k) = false) ->
   uploadStatus w' = Some (msgPartial (successCount w') (length items)) /\
   0 < successCount w' < length items).
Proof.
  intros Hne w'. subst w'. unfold exec.
  rewrite (handleUploadAll_summary o items w Hne). cbn [snd].
  split; [|split].
  - intros Hall. destruct (loopCount_all o items 0 Hall) as [C E].
    rewrite E, C, Nat.eqb_refl. reflexivity.
  - intros Hresp Hnone.
    destruct (loop_no_reject o items 0 Hresp) as (E & _).
    rewrite E, (loopCount_none o items 0 Hnone).
    destruct items as [|x rest]; [congruence|]. reflexivity.
  - intros Hresp Hsome (k & Hk & Hfail).
    destruct (loop_no_reject o items 0 Hresp) as (E & _).
    pose proof (loopCount_pos o items 0 Hresp Hsome) as Hpos.
    pose proof (loopCount_le o items 0) as Hle.
    rewrite E.
    destruct (Nat.eqb_spec (loopCount o 0 items) (length items)) as [C|C].
    + pose proof (loopCount_full o items 0 C k Hk) as Hs.
      cbn in Hs. congruence.
    + destruct (Nat.eqb_spec (loopCount o 0 items) 0) as [Z|Z]; [lia|].
      cbn [uploadStatus successCount]. split; [reflexivity|lia].
Qed.

Lemma upload_status_message_witness :
  uploadStatus
    (exec (handleUploadAll Samples.second500
             [Samples.photoA; Samples.photoB; Samples.photoC])
       (Samples.home [Samples.photoA; Samples.photoB; Samples.photoC]))
  = Some (msgPartial 2 3) /\
  uploadStatus
    (exec (handleUploadAll Samples.all500 [Samples.photoA; Samples.photoB])
       (Samples.home [Samples.photoA; Samples.photoB]))
  = Some msgAllFailed.
Proof.
  split.
  - destruct (upload_status_message Samples.second500
                [Samples.photoA; Samples.photoB; Samples.photoC]
                (Samples.home [Samples.photoA; Samples.photoB; Samples.photoC]))
      as (_ & _ & A); [discriminate|].
    destruct A as (B & _).
    + intros k _. destruct k as [|[|k]]; reflexivity.
    + exists 0. split; [cbn; lia|reflexivity].
    + exists 1. split; [cbn; lia|reflexivity].
    + exact B.
  - destruct (upload_status_message Samples.all500
                [Samples.photoA; Samples.photoB]
                (Samples.home [Samples.photoA; Samples.photoB]))
      as (_ & A & _); [discriminate|].
    apply A; intros k _; reflexivity.
Defined.



Lemma split_nonempty (sep : ascii) (s : string) : JS.split sep s <> [].
Proof.
  destruct s as [|c rest]; cbn [JS.split]; [discriminate|].
  destruct (Ascii.eqb c sep); [discriminate|].
  destruct (JS.split sep rest); discriminate.
Qed.

(** Splitting goes through a separator. *)
Lemma split_app (sep : ascii) (a b : string) :
  JS.split sep (a +:+ String sep b) = JS.split sep a ++ JS.split sep b.
Proof.
  induction a as [|c a IH].
  - change ("" +:+ String sep b) with (String sep b). cbn [JS.split].
    rewrite Ascii.eqb_refl. reflexivity.
  - change (String c a +:+ String sep b) with (String c (a +:+ String sep b)).
    cbn [JS.split].
    destruct (Ascii.eqb c sep); rewrite IH; [reflexivity|].
    pose proof (split_nonempty sep a) as Hne.
    destruct (JS.split sep a) as [|hd tl]; [congruence|reflexivity].
Qed.

Lemma split_plain (sep : ascii) (s : string) :
  occurs sep s = false -> JS.split sep s = [s].
Proof.
  induction s as [|c s IH]; cbn [occurs JS.split]; [reflexivity|].
  intros H. apply orb_false_iff in H as [Hc Hs].
  rewrite Hc, (IH Hs). reflexivity.
Qed.

Lemma split_pieces (sep : ascii) (s : string) :
  Forall (fun piece => occurs sep piece = false) (JS.split sep s).
Proof.
  induction s as [|c s IH]; cbn [JS.split].
  - repeat constructor.
  - destruct (Ascii.eqb c sep) eqn:E; [constructor; [reflexivity|exact IH]|].
    destruct (JS.split sep s) as [|hd tl]; [repeat constructor; cbn; rewrite E; reflexivity|].
    inversion IH as [|? ? Hhd Htl]; subst.
    constructor; [cbn; rewrite E, Hhd; reflexivity|exact Htl].
Qed.

(** X10. The name a file is uploaded under is the text after the last
    slash of its uri: the whole uri if it has no slash, the empty name if it
    ends in one.  It never contains a slash, and the time-stamped fallback
    name is never used, so the name does not depend on the clock. *)
Theorem filename_is_last_segment (o o' : Oracle) (uri dir name : string) :
  (occurs "/" name = false ->
   filenameOf o (dir +:+ "/" +:+ name) = name) /\
  (occurs "/" uri = false -> filenameOf o uri = uri) /\
  filenameOf o (dir +:+ "/") = "" /\
  occurs "/" (filenameOf o uri) = false /\
  filenameOf o uri = filenameOf o' uri.
Proof.
  assert (Hslash : forall a b,
             occurs "/" b = false ->
             filenameOf o (a +:+ "/" +:+ b) = b).
  { intros a b Hb. unfold filenameOf, JS.pop.
    change ("/" +:+ b) with (String "/" b).
    rewrite split_app, (split_plain _ _ Hb), last_snoc. reflexivity. }
  split; [apply Hslash|]. split; [|split; [|split]].
  - intros H. unfold filenameOf, JS.pop. rewrite (split_plain _ _ H).
    reflexivity.
  - pose proof (Hslash dir "" eq_refl) as H.
    replace ("/" +:+ "") with "/" in H by reflexivity. exact H.
  - unfold filenameOf, JS.pop.
    pose proof (split_pieces "/" uri) as Hp.
    pose proof (split_nonempty "/" uri) as Hne.
    destruct (last (JS.split "/" uri)) as [x|] eqn:E.
    + cbn [JS.nullish]. apply last_Some in E as (l' & E).
      rewrite E in Hp. apply Forall_app in Hp as [_ Hx].
      inversion Hx; assumption.
    + apply last_None in E. congruence.
  - unfold filenameOf, JS.pop.
    pose proof (split_nonempty "/" uri) as Hne.
    destruct (last (JS.split "/" uri)) as [x|] eqn:E; [reflexivity|].
    apply last_None in E. congruence.
Qed.

Lemma filename_is_last_segment_witness :
  filenameOf Samples.allOk ("file:///photos" +:+ "/" +:+ "a.jpg") = "a.jpg" /\
  filenameOf Samples.allOk "receipt.png" = "receipt.png".
Proof.
  destruct (filename_is_last_segment Samples.allOk Samples.all500
              "receipt.png" "file:///photos" "a.jpg") as (A & B & _).
  split; [apply A; reflexivity|apply B; reflexivity].
Defined.

(** X21. After [handleClearAll] the queue is empty and the status
    message is cleared, whatever they were; a press of "Upload" then issues
    no request and changes nothing, and removing at any index or clearing
    again changes nothing either. *)
Theorem clear_then_upload (o : Oracle) (index : nat) (w : World) :
  let w1 := exec handleClearAll w in
  selectedImages w1 = [] /\ uploadStatus w1 = None /\
  isUploading w1 = isUploading w /\ trace w1 = trace w /\
  pressUpload o w1 = (Ret tt, w1) /\
  exec (handleRemoveAt index) w1 = w1 /\
  exec handleClearAll w1 = w1.
Proof.
  intros w1. subst w1.
  unfold exec, handleClearAll, handleRemoveAt, updateSelectedImages,
    filterIndexed, pressUpload, setSelectedImages, setUploadStatus, bind, get,
    modify.
  cbn. repeat split.
Qed.

End UploadSpec.

(** * The upload with other handlers in between *)

Module InterleavingSpec.
Import Http HomeScreen Handlers Interleaving HomeScreenSpec HandlersSpec
  UploadSpec.
Local Open Scope list_scope.
Local Open Scope nat_scope.

Lemma bind_run {W A B} (c : Eff W A) (k : A -> Eff W B) (s : W) (a : A) :
  result c s = Ret a -> bind c k s = k a (exec c s).
Proof.
  unfold result, exec, bind. destruct (c s) as [r s1]. cbn.
  intros ->. reflexivity.
Qed.

Lemma exec_bind {W A B} (c : Eff W A) (k : A -> Eff W B) (s : W) (a : A) :
  result c s = Ret a -> exec (bind c k) s = exec (k a) (exec c s).
Proof. intros R. unfold exec at 1. rewrite (bind_run c k s a R). reflexivity. Qed.

Lemma result_bind {W A B} (c : Eff W A) (k : A -> Eff W B) (s : W) (a : A) :
  result c s = Ret a -> result (bind c k) s = result (k a) (exec c s).
Proof. intros R. unfold result at 1. rewrite (bind_run c k s a R). reflexivity. Qed.

(** A press never throws and leaves the uploading flag, the success count
    and the trace of requests alone; what it does to the queue depends on
    the queue only. *)
Lemma handlePress_effect (p : press) :
  exists f : list string -> list string,
    forall s,
      result (handlePress p) s = Ret tt /\
      selectedImages (home (exec (handlePress p) s))
        = f (selectedImages (home s)) /\
      isUploading (home (exec (handlePress p) s)) = isUploading (home s) /\
      successCount (home (exec (handlePress p) s)) = successCount (home s) /\
      trace (home (exec (handlePress p) s)) = trace (home s).
Proof.
  destruct p as [dev|dev|index| |]; cbn [handlePress].
  - destruct (cameraMounted dev) eqn:Hm;
      [destruct (permissionGranted dev) eqn:Hp|].
    + destruct (capture dev) as [photo|e] eqn:Hc.
      * destruct (JS.truthy (photo_uri <$> photo)) as [u|] eqn:Hu.
        -- exists (fun q => q ++ [u]). intros s. unfold exec, result.
           rewrite (takePicture_summary dev s Hm Hp), Hc, Hu.
           repeat split.
        -- exists (fun q => q). intros s. unfold exec, result.
           rewrite (takePicture_summary dev s Hm Hp), Hc, Hu.
           repeat split.
      * exists (fun q => q). intros s. unfold exec, result.
        rewrite (takePicture_summary dev s Hm Hp), Hc. repeat split.
    + exists (fun q => q). intros s. unfold exec, result.
      rewrite (takePicture_guarded dev s (or_intror Hp)). repeat split.
    + exists (fun q => q). intros s. unfold exec, result.
      rewrite (takePicture_guarded dev s (or_introl Hm)). repeat split.
  - destruct (pick dev) as [r|e] eqn:Hp.
    + destruct (assets r) as [picked|] eqn:Ha.
      * destruct (negb (canceled r) && (0 <? length picked)) eqn:Hc.
        -- exists (fun q => q ++ map asset_uri picked). intros s.
           unfold exec, result.
           rewrite pickFromFiles_summary, Hp, Ha, Hc. repeat split.
        -- exists (fun q => q). intros s. unfold exec, result.
           rewrite pickFromFiles_summary, Hp, Ha, Hc. repeat split.
      * exists (fun q => q). intros s. unfold exec, result.
        rewrite pickFromFiles_summary, Hp, Ha. repeat split.
    + exists (fun q => q). intros s. unfold exec, result.
      rewrite pickFromFiles_summary, Hp. repeat split.
  - exists (fun q => take index q ++ drop (S index) q). intros s.
    unfold exec, result, liftHome. rewrite removeAt_outcome_eq.
    repeat split.
  - exists (fun q => q). intros s. repeat split.
  - exists (fun q => q). intros s. repeat split.
Qed.

Lemma runPresses_effect (ps : list press) :
  exists f : list string -> list string,
    forall s,
      result (runPresses ps) s = Ret tt /\
      selectedImages (home (exec (runPresses ps) s))
        = f (selectedImages (home s)) /\
      isUploading (home (exec (runPresses ps) s)) = isUploading (home s) /\
      successCount (home (exec (runPresses ps) s)) = successCount (home s) /\
      trace (home (exec (runPresses ps) s)) = trace (home s).
Proof.
  induction ps as [|p rest (g & Hg)].
  - exists (fun q => q). intros s. repeat split.
  - destruct (handlePress_effect p) as (f & Hf).
    exists (fun q => g (f q)). intros s. cbn [runPresses].
    destruct (Hf s) as (R & Q & U & C & T).
    destruct (Hg (exec (handlePress p) s)) as (R' & Q' & U' & C' & T').
    rewrite (result_bind _ _ s tt R), !(exec_bind _ _ s tt R).
    rewrite R', Q', U', C', T', Q, U, C, T. repeat split.
Qed.

Lemma runPresses_app (a b : list press) (s : Screen) :
  exec (runPresses (a ++ b)) s = exec (runPresses b) (exec (runPresses a) s).
Proof.
  revert s. induction a as [|p a IH]; intros s; [reflexivity|].
  cbn [app runPresses].
  destruct (handlePress_effect p) as (f & Hf).
  destruct (Hf s) as (R & _).
  rewrite !(exec_bind _ _ s tt R). apply IH.
Qed.

Lemma runPresses_agree (ps : list press) (s1 s2 : Screen) :
  selectedImages (home s1) = selectedImages (home s2) ->
  selectedImages (home (exec (runPresses ps) s1))
  = selectedImages (home (exec (runPresses ps) s2)).
Proof.
  intros E. destruct (runPresses_effect ps) as (f & Hf).
  destruct (Hf s1) as (_ & Q1 & _). destruct (Hf s2) as (_ & Q2 & _).
  rewrite Q1, Q2, E. reflexivity.
Qed.

(** The interleaved loop posts, counts and exits as the loop alone does;
    its queue is the one the presses handled on the way make of the queue it
    started with. *)
Lemma uploadEachDuring_cells (o : Oracle) (during : nat -> list press)
    (items : list string) :
  forall i s s2,
    selectedImages (home s) = selectedImages (home s2) ->
    let s' := exec (uploadEachDuring o during i items) s in
    result (uploadEachDuring o during i items) s = loopExit o i items /\
    successCount (home s') = successCount (home s) + loopCount o i items /\
    trace (home s') = trace (home s) ++ loopEvents o i items /\
    isUploading (home s') = isUploading (home s) /\
    selectedImages (home s')
    = selectedImages
        (home (exec (runPresses (pressesDuring o during i items)) s2)).
Proof.
  induction items as [|uri rest IH]; intros i s s2 E; cbn zeta.
  - cbn. rewrite Nat.add_0_r, app_nil_r. repeat split. exact E.
  - cbn [uploadEachDuring loopExit loopCount loopEvents pressesDuring].
    set (sA := exec (liftHome (emit (Post BACKEND_UPLOAD_URL
                                       (filenameOf o uri) uri))) s).
    assert (RA : result (liftHome (emit (Post BACKEND_UPLOAD_URL
                                           (filenameOf o uri) uri))) s
                 = Ret tt) by reflexivity.
    destruct (runPresses_effect (during i)) as (f & Hf).
    destruct (Hf sA) as (RB & _ & UB & CB & TB).
    pose proof (runPresses_agree (during i) sA s2 E) as QB.
    set (sB := exec (runPresses (during i)) sA) in *.
    rewrite (result_bind _ _ s tt RA), !(exec_bind _ _ s tt RA).
    fold sA.
    rewrite (result_bind _ _ sA tt RB), !(exec_bind _ _ sA tt RB).
    fold sB.
    destruct (post_result o i) as [r|e] eqn:Hr.
    + assert (RS : result (settle (Ret r)) sB = Ret r) by reflexivity.
      rewrite (result_bind _ _ sB r RS), !(exec_bind _ _ sB r RS).
      change (exec (settle (Ret r)) sB) with sB.
      rewrite runPresses_app. fold sB.
      destruct (ok r); cbn [negb].
      * set (sC := exec (liftHome (w <- get ;;
                                   assignSuccessCount (successCount w + 1)))
                     sB).
        assert (RC : result (liftHome (w <- get ;;
                               assignSuccessCount (successCount w + 1))) sB
                     = Ret tt) by reflexivity.
        rewrite (result_bind _ _ sB tt RC), !(exec_bind _ _ sB tt RC).
        fold sC.
        destruct (IH (S i) sC (exec (runPresses (during i)) s2) QB)
          as (R & C & T & U & Q).
        rewrite R, C, T, U, Q.
        change (successCount (home sC)) with (successCount (home sB) + 1).
        change (trace (home sC)) with (trace (home sB)).
        change (isUploading (home sC)) with (isUploading (home sB)).
        rewrite CB, TB, UB.
        change (trace (home sA))
          with (trace (home s) ++ [postOf o uri]).
        change (successCount (home sA)) with (successCount (home s)).
        change (isUploading (home sA)) with (isUploading (home s)).
        rewrite <- app_assoc. repeat split. lia.
      * set (sC := exec (liftHome (emit (WarnUploadFailed (filenameOf o uri)
                                           (status r)))) sB).
        assert (RC : result (liftHome (emit (WarnUploadFailed
                                               (filenameOf o uri) (status r))))
                       sB = Ret tt) by reflexivity.
        rewrite (result_bind _ _ sB tt RC), !(exec_bind _ _ sB tt RC).
        fold sC.
        destruct (IH (S i) sC (exec (runPresses (during i)) s2) QB)
          as (R & C & T & U & Q).
        rewrite R, C, T, U, Q.
        change (successCount (home sC)) with (successCount (home sB)).
        change (trace (home sC))
          with (trace (home sB)
                ++ [WarnUploadFailed (filenameOf o uri) (status r)]).
        change (isUploading (home sC)) with (isUploading (home sB)).
        rewrite CB, TB, UB.
        change (trace (home sA))
          with (trace (home s) ++ [postOf o uri]).
        change (successCount (home sA)) with (successCount (home s)).
        change (isUploading (home sA)) with (isUploading (home s)).
        rewrite <- !app_assoc. repeat split.
    + unfold result, exec, bind, settle. cbn [fst snd].
      rewrite app_nil_r.
      fold (exec (runPresses (during i)) s2).
      rewrite CB, TB, UB, QB.
      change (trace (home sA))
        with (trace (home s) ++ [postOf o uri]).
      change (successCount (home sA)) with (successCount (home s)).
      change (isUploading (home sA)) with (isUploading (home s)).
      rewrite Nat.add_0_r. repeat split.
Qed.

Lemma bind_throw {W A B} (c : Eff W A) (k : A -> Eff W B) (s : W) (e : JS.exn) :
  result c s = Throw e -> bind c k s = (Throw e, exec c s).
Proof.
  unfold result, exec, bind. destruct (c s) as [r s1]. cbn.
  intros ->. reflexivity.
Qed.

(** What an interleaved call over a non-empty queue leaves behind. *)
Lemma handleUploadAllDuring_cells (o : Oracle) (during : nat -> list press)
    (items : list string) (s : Screen) :
  items <> [] ->
  let s' := exec (handleUploadAllDuring o during items) s in
  result (handleUploadAllDuring o during items) s = Ret tt /\
  isUploading (home s') = false /\
  successCount (home s') = loopCount o 0 items /\
  trace (home s')
  = trace (home s) ++ loopEvents o 0 items
    ++ match loopExit o 0 items with
       | Ret _ => []
       | Throw e => [WarnUploadError e]
       end /\
  selectedImages (home s')
  = if returns (loopExit o 0 items) && (loopCount o 0 items =? length items)
    then []
    else selectedImages
           (home (exec (runPresses (pressesDuring o during 0 items)) s)).
Proof.
  intros Hne s'. subst s'.
  assert (Hlen : (length items =? 0) = false)
    by (destruct items; [congruence|reflexivity]).
  set (sa := exec (liftHome (setIsUploading true)) s).
  set (sb := exec (liftHome (setUploadStatus None)) sa).
  set (s0 := exec (liftHome (assignSuccessCount 0)) sb).
  destruct (uploadEachDuring_cells o during items 0 s0 s eq_refl)
    as (R & C & T & U & Q).
  set (s1 := exec (uploadEachDuring o during 0 items) s0) in *.
  change (successCount (home s0)) with 0 in C. cbn [Nat.add] in C.
  change (trace (home s0)) with (trace (home s)) in T.
  assert (R1 : result (liftHome (setIsUploading true)) s = Ret tt)
    by reflexivity.
  assert (R2 : result (liftHome (setUploadStatus None)) sa = Ret tt)
    by reflexivity.
  assert (R3 : result (liftHome (assignSuccessCount 0)) sb = Ret tt)
    by reflexivity.
  change (result (handleUploadAllDuring o during items) s)
    with (fst (handleUploadAllDuring o during items s)).
  change (exec (handleUploadAllDuring o during items) s)
    with (snd (handleUploadAllDuring o during items s)).
  destruct (handleUploadAllDuring o during items s) as [r sF] eqn:E.
  cbn [fst snd].
  unfold handleUploadAllDuring in E. rewrite Hlen in E.
  rewrite (bind_run _ _ s tt R1) in E. fold sa in E.
  rewrite (bind_run _ _ sa tt R2) in E. fold sb in E.
  unfold try_finally, try_catch in E.
  rewrite (bind_run _ _ sb tt R3) in E. fold s0 in E.
  destruct (loopExit o 0 items) as [[]|e]; cbn [returns andb].
  - rewrite (bind_run _ _ s0 tt R) in E. fold s1 in E.
    unfold bind, get, liftHome, setUploadStatus, setSelectedImages,
      setIsUploading, modify in E.
    cbn [fst snd home] in E. rewrite C in E.
    destruct (loopCount o 0 items =? length items);
      [|destruct (loopCount o 0 items =? 0)];
      cbn [fst snd home selectedImages isUploading uploadStatus successCount
           trace] in E;
      injection E as <- <-;
      cbn [fst snd home selectedImages isUploading uploadStatus successCount
           trace];
      rewrite ?C, ?T, ?app_nil_r; repeat split; exact Q.
  - rewrite (bind_throw _ _ s0 e R) in E. fold s1 in E.
    unfold bind, liftHome, emit, setUploadStatus, setIsUploading, modify in E.
    cbn [fst snd home selectedImages isUploading uploadStatus successCount
         trace] in E.
    injection E as <- <-.
    cbn [fst snd home selectedImages isUploading uploadStatus successCount
         trace].
    rewrite C, T, <- app_assoc. repeat split. exact Q.
Qed.

Lemma pressesDuring_none (o : Oracle) (during : nat -> list press)
    (items : list string) :
  (forall i, during i = []) ->
  forall i, pressesDuring o during i items = [].
Proof.
  intros Hd. induction items as [|uri rest IH]; intros i; [reflexivity|].
  cbn [pressesDuring]. rewrite Hd, IH. destruct (post_result o i); reflexivity.
Qed.

(** With no press in between, the interleaved loop is the loop. *)
Lemma uploadEachDuring_alone (o : Oracle) (during : nat -> list press)
    (items : list string) :
  (forall i, during i = []) ->
  forall i s,
    uploadEachDuring o during i items s = liftHome (uploadEach o i items) s.
Proof.
  intros Hd. induction items as [|uri rest IH]; intros i s.
  - destruct s; reflexivity.
  - cbn [uploadEachDuring uploadEach]. rewrite Hd. cbn [runPresses].
    cbv [bind fetch emit modify settle ret get assignSuccessCount liftHome
         home facing flash calls fst snd].
    destruct (post_result o i) as [r|e]; [|reflexivity].
    destruct (ok r); cbn [negb]; rewrite IH; reflexivity.
Qed.

(** With no press in between, the interleaved handler is
    [handleUploadAll] run on the upload cells of the screen. *)
Lemma handleUploadAllDuring_alone (o : Oracle) (during : nat -> list press)
    (items : list string) (s : Screen) :
  (forall i, during i = []) ->
  handleUploadAllDuring o during items s
  = liftHome (handleUploadAll o items) s.
Proof.
  intros Hd. unfold handleUploadAllDuring, handleUploadAll.
  destruct (length items =? 0); [destruct s; reflexivity|].
  cbv [bind try_finally try_catch setIsUploading setUploadStatus
       setSelectedImages assignSuccessCount emit modify get ret liftHome
       home facing flash calls fst snd].
  rewrite (uploadEachDuring_alone o during items Hd).
  cbv [liftHome home facing flash calls].
  destruct (uploadEach o 0 items _) as [[[]|e] w1]; [|reflexivity].
  cbn [successCount].
  destruct (successCount w1 =? length items);
    [|destruct (successCount w1 =? 0)]; reflexivity.
Qed.

(** C3, as the claim states it, fails.  The queue is [A]; "Upload" is
    pressed; while the POST of A is in flight the user takes the photo C,
    which joins the queue; the POST is answered 200.  Only A was posted, C
    was no part of the batch, and yet the queue ends empty: C is gone too. *)
Lemma upload_clears_unposted_counterexample :
  let s := MoreSamples.screen [Samples.photoA] in
  let s' :=
    exec (pressUploadDuring Samples.allOk MoreSamples.captureDuringFirst) s in
  selectedImages
    (home (exec (runPresses [ShutterPress MoreSamples.ready]) s))
    = [Samples.photoA; Samples.photoC] /\
  posts (trace (home s')) = [postOf Samples.allOk Samples.photoA] /\
  selectedImages (home s') = [] /\
  selectedImages (home s') <> [Samples.photoC].
Proof. vm_compute. repeat split. discriminate. Qed.

(** C3, amended.  After an upload over a non-empty queue, with whatever
    presses of the shutter, the files button, a thumbnail or the camera
    toggles were handled while its POSTs were in flight: if every item
    succeeded the whole queue is emptied, items added in the meantime
    included; if every item failed, or some but not all succeeded, the
    upload does not write the queue, which is what those presses alone make
    of the queue the upload started with, and the starting queue itself if
    there were none.  The items posted are items of the batch only. *)
Theorem upload_queue_effect (o : Oracle) (during : nat -> list press)
    (s : Screen) :
  selectedImages (home s) <> [] ->
  let items := selectedImages (home s) in
  let s' := exec (pressUploadDuring o during) s in
  let edited :=
    selectedImages
      (home (exec (runPresses (pressesDuring o during 0 items)) s)) in
  ((forall k, k < length items -> succeeds (post_result o k) = true) ->
   selectedImages (home s') = []) /\
  ((forall k, k < length items -> succeeds (post_result o k) = false) ->
   selectedImages (home s') = edited) /\
  ((exists k, k < length items /\ succeeds (post_result o k) = true) ->
   (exists k, k < length items /\ succeeds (post_result o k) = false) ->
   selectedImages (home s') = edited) /\
  ((forall i, during i = []) -> edited = items) /\
  (exists n, n <= length items /\
             posts (emitted (home s) (home s'))
             = map (postOf o) (take n items)).
Proof.
  intros Hne items s' edited. subst s' edited items.
  change (exec (pressUploadDuring o during) s)
    with (exec (handleUploadAllDuring o during (selectedImages (home s))) s).
  destruct (handleUploadAllDuring_cells o during (selectedImages (home s)) s
              Hne) as (_ & _ & _ & T & Q).
  rewrite Q.
  assert (Hfail : (exists k, k < length (selectedImages (home s)) /\
                             succeeds (post_result o k) = false) ->
                  returns (loopExit o 0 (selectedImages (home s)))
                  && (loopCount o 0 (selectedImages (home s))
                      =? length (selectedImages (home s))) = false).
  { intros (k & Hk & Hf).
    destruct (loopCount o 0 (selectedImages (home s))
              =? length (selectedImages (home s))) eqn:E;
      [|apply andb_false_r].
    apply Nat.eqb_eq in E.
    pose proof (loopCount_full o _ 0 E k Hk) as Hs. cbn in Hs. congruence. }
  split; [|split; [|split; [|split]]].
  - intros Hall. destruct (loopCount_all o _ 0 Hall) as [C E].
    rewrite E, C, Nat.eqb_refl. reflexivity.
  - intros Hnone. rewrite Hfail; [reflexivity|].
    destruct (selectedImages (home s)) as [|x rest] eqn:Eq; [congruence|].
    exists 0. split; [cbn; lia|]. apply Hnone. cbn; lia.
  - intros _ Hsome. rewrite (Hfail Hsome). reflexivity.
  - intros Hd. rewrite (pressesDuring_none o during _ Hd 0). reflexivity.
  - destruct (loop_posts_prefix o (selectedImages (home s)) 0)
      as (n & Hn & _ & P).
    exists n. split; [exact Hn|].
    rewrite (emitted_app _ _ _ T), posts_app, P.
    destruct (loopExit o 0 (selectedImages (home s))); apply app_nil_r.
Qed.

Lemma upload_queue_effect_witness :
  selectedImages
    (home (exec (pressUploadDuring Samples.allOk MoreSamples.captureDuringFirst)
             (MoreSamples.screen [Samples.photoA]))) = [] /\
  selectedImages
    (home (exec (pressUploadDuring Samples.second500
                   MoreSamples.removeDuringSecond)
             (MoreSamples.screen [Samples.photoA; Samples.photoB])))
  = [Samples.photoB] /\
  selectedImages
    (home (exec (pressUploadDuring Samples.all500 (fun _ => []))
             (MoreSamples.screen [Samples.photoA; Samples.photoB])))
  = [Samples.photoA; Samples.photoB].
Proof.
  split; [|split].
  - destruct (upload_queue_effect Samples.allOk MoreSamples.captureDuringFirst
                (MoreSamples.screen [Samples.photoA])) as (A & _);
      [discriminate|].
    apply A. intros k _. reflexivity.
  - destruct (upload_queue_effect Samples.second500
                MoreSamples.removeDuringSecond
                (MoreSamples.screen [Samples.photoA; Samples.photoB]))
      as (_ & _ & A & _); [discriminate|].
    rewrite A; [reflexivity| |].
    + exists 0. split; [cbn; lia|reflexivity].
    + exists 1. split; [cbn; lia|reflexivity].
  - destruct (upload_queue_effect Samples.all500 (fun _ => [])
                (MoreSamples.screen [Samples.photoA; Samples.photoB]))
      as (_ & A & _ & B & _); [discriminate|].
    rewrite A; [|intros k _; reflexivity].
    apply B. reflexivity.
Defined.

End InterleavingSpec.

(** * Further properties of the session lifecycle *)

Module ProcessSpec.
Import Http Layout Process LayoutSpec.
Local Open Scope list_scope.
Local Open Scope nat_scope.

(** X11. A response that is not a success, or a success that arrives
    before the discovery document, is ignored: no exchange is attempted,
    nothing is logged and the state is left as it was. *)
Theorem response_ignored (cfg : Config) (o : Oracle)
    (response : option AuthSessionResult) (discovery : option DiscoveryDocument)
    (uri : string) (request : option AuthRequest) (w : World) :
  (forall code, response <> Some (Success code)) \/ discovery = None ->
  handleResponse cfg o response discovery uri request w = (Ret tt, w).
Proof.
  intros H. unfold handleResponse.
  destruct response as [[code| | | | |]|]; try reflexivity.
  destruct discovery as [d|]; [|reflexivity].
  destruct H as [H|H]; [|discriminate].
  exfalso. apply (H code). reflexivity.
Qed.

Lemma response_ignored_witness :
  handleResponse Samples.cfg Samples.healthy (Some Cancel)
    (Some Samples.discovery) Samples.redirect (Some Samples.request)
    Samples.signedOut
  = (Ret tt, Samples.signedOut) /\
  handleResponse Samples.cfg Samples.healthy (Some (Success "code"))
    None Samples.redirect (Some Samples.request) Samples.signedOut
  = (Ret tt, Samples.signedOut).
Proof.
  split; apply response_ignored; [left; discriminate|right; reflexivity].
Defined.

(** X12. When the token exchange itself rejects, the effect does not
    throw: the error is logged, no profile request and no store write is
    made, and the session, the flags and the store are left as they were. *)
Theorem exchange_rejected (cfg : Config) (o : Oracle) (code uri : string)
    (d : DiscoveryDocument) (request : option AuthRequest) (w : World)
    (e : JS.exn) :
  exchange_result o = Throw e ->
  handleResponse cfg o (Some (Success code)) (Some d) uri request w =
  (Ret tt,
   {| authState := authState w;
      loading := loading w;
      autoStarted := autoStarted w;
      secureStore := secureStore w;
      trace := trace w ++ [exchangeEvent cfg code uri request;
                           exchangeWarning e] |}).
Proof.
  intros H. unfold_eff. rewrite H.
  cbn [fst snd authState loading autoStarted secureStore trace].
  rewrite <- app_assoc. reflexivity.
Qed.

Lemma exchange_rejected_witness :
  exec (handleResponse Samples.cfg MoreSamples.exchangeDown
          (Some (Success "code")) (Some Samples.discovery) Samples.redirect
          (Some Samples.request))
       Samples.signedOut
  = {| authState := None; loading := false; autoStarted := false;
       secureStore := ∅;
       trace := [exchangeEvent Samples.cfg "code" Samples.redirect
                   (Some Samples.request);
                 exchangeWarning JS.ExchangeError] |}.
Proof.
  unfold exec.
  rewrite (exchange_rejected Samples.cfg MoreSamples.exchangeDown "code"
             Samples.redirect Samples.discovery (Some Samples.request)
             Samples.signedOut JS.ExchangeError eq_refl).
  reflexivity.
Defined.

(** X13. The token is stored before the session is entered, and a store
    that rejects the write stops the sign-in: after a good exchange and a
    good profile answer, the session and the store are left as they were and
    the storage error is what is logged. *)
Theorem store_write_rejected (cfg : Config) (o : Oracle) (code uri : string)
    (d : DiscoveryDocument) (request : option AuthRequest)
    (tr : TokenResponse) (t : string) (st : nat)
    (fields : gmap string string) (w : World) :
  exchange_result o = Ret tr ->
  JS.truthy (tr_accessToken tr) = Some t ->
  me_result o = Ret {| status := st; body := Some (JObject fields) |} ->
  setItem_rejects o = true ->
  handleResponse cfg o (Some (Success code)) (Some d) uri request w =
  (Ret tt,
   {| authState := authState w;
      loading := loading w;
      autoStarted := autoStarted w;
      secureStore := secureStore w;
      trace :=
        trace w ++
          [exchangeEvent cfg code uri request; profileEvent t;
           ConsoleLog [Some "Signed in as:"; fields !! "givenName";
                       fields !! "surname"];
           SetItem "accessToken" t;
           exchangeWarning JS.StorageError] |}).
Proof.
  intros Hex Htok Hme Hset. unfold_eff.
  rewrite Hex. cbn [fst snd]. rewrite Htok, Hme. cbn [body]. rewrite Hset.
  cbn [fst snd authState loading autoStarted secureStore trace].
  rewrite <- !app_assoc. reflexivity.
Qed.

Lemma store_write_rejected_witness :
  authState
    (exec (handleResponse Samples.cfg MoreSamples.writeBroken
             (Some (Success "code")) (Some Samples.discovery) Samples.redirect
             (Some Samples.request))
          Samples.signedOut)
  = None.
Proof.
  unfold exec.
  rewrite (store_write_rejected Samples.cfg MoreSamples.writeBroken "code"
             Samples.redirect Samples.discovery (Some Samples.request)
             {| tr_accessToken := Some "tok1" |} "tok1" 200
             Samples.profileAda Samples.signedOut
             eq_refl eq_refl eq_refl eq_refl).
  reflexivity.
Defined.

(** X14. Sign-in followed by a restart.  After a sign-in that went
    through with token [t], a new process over the same store whose read
    succeeds starts in the session with exactly [t]; the profile fields of
    the previous process are not restored. *)
Theorem signin_then_restart (cfg : Config) (o o' : Oracle) (code uri : string)
    (d : DiscoveryDocument) (request : option AuthRequest)
    (tr : TokenResponse) (t : string) (st : nat)
    (fields : gmap string string) (w : World) :
  exchange_result o = Ret tr ->
  JS.truthy (tr_accessToken tr) = Some t ->
  me_result o = Ret {| status := st; body := Some (JObject fields) |} ->
  setItem_rejects o = false ->
  getItem_rejects o' = false ->
  let w1 := exec (handleResponse cfg o (Some (Success code)) (Some d)
                    uri request) w in
  gateView (exec (loadToken o') (restart w1))
  = Children {| accessToken := t; displayName := None;
                givenName := None; surname := None |}.
Proof.
  intros Hex Htok Hme Hset Hget w1. subst w1. unfold exec at 2.
  rewrite (exchange_profile_object cfg o code uri d request tr t Hex Htok
             w st fields Hme Hset).
  unfold exec, restart. rewrite loadToken_summary.
  cbn [snd secureStore initial authState loading]. unfold gateView.
  cbn [loading authState]. rewrite Hget, lookup_insert_eq.
  rewrite (truthy_present t (proj2 (truthy_some _ _ Htok))). reflexivity.
Qed.

Lemma signin_then_restart_witness :
  gateView
    (exec (loadToken Samples.healthy)
       (restart
          (exec (handleResponse Samples.cfg Samples.healthy
                   (Some (Success "code")) (Some Samples.discovery)
                   Samples.redirect (Some Samples.request))
                Samples.signedOut)))
  = Children {| accessToken := "tok1"; displayName := None;
                givenName := None; surname := None |}.
Proof.
  apply (signin_then_restart Samples.cfg Samples.healthy Samples.healthy
           "code" Samples.redirect Samples.discovery (Some Samples.request)
           {| tr_accessToken := Some "tok1" |} "tok1" 200 Samples.profileAda
           Samples.signedOut); reflexivity.
Defined.

(** X15. Sign-out followed by a restart.  If the delete went through, the
    new process starts signed out, whatever its read does.  If the delete was
    rejected and a non-empty token was stored, the new process, its read
    succeeding, starts in the session with that token again. *)
Theorem signout_then_restart (o o' : Oracle) (w : World) :
  let w1 := exec (signOut o) w in
  (deleteItem_rejects o = false ->
   gateView (exec (loadToken o') (restart w1)) = SignInRequired) /\
  (forall t,
     deleteItem_rejects o = true -> getItem_rejects o' = false ->
     secureStore w !! "accessToken" = Some t -> t <> "" ->
     gateView (exec (loadToken o') (restart w1))
     = Children {| accessToken := t; displayName := None;
                   givenName := None; surname := None |}).
Proof.
  intros w1. subst w1. unfold exec, restart.
  rewrite signOut_summary, loadToken_summary.
  cbn [snd secureStore initial authState loading]. unfold gateView.
  cbn [loading authState]. split.
  - intros Hdel. rewrite Hdel, lookup_delete_eq. cbn [JS.truthy].
    destruct (getItem_rejects o'); reflexivity.
  - intros t Hdel Hget Hstored Hne.
    rewrite Hdel, Hget, Hstored, (truthy_present t Hne). reflexivity.
Qed.

Lemma signout_then_restart_witness :
  gateView
    (exec (loadToken Samples.healthy)
       (restart (exec (signOut Samples.healthy) Samples.signedIn)))
  = SignInRequired /\
  gateView
    (exec (loadToken Samples.healthy)
       (restart (exec (signOut MoreSamples.deleteBroken) Samples.signedIn)))
  = Children {| accessToken := "abc123"; displayName := None;
                givenName := None; surname := None |}.
Proof.
  split.
  - destruct (signout_then_restart Samples.healthy Samples.healthy
                Samples.signedIn) as (A & _).
    apply A. reflexivity.
  - destruct (signout_then_restart MoreSamples.deleteBroken Samples.healthy
                Samples.signedIn) as (_ & B).
    apply (B "abc123"); [reflexivity|reflexivity|reflexivity|discriminate].
Defined.

(** What one action may do to the secure store. *)
Lemma step_store (cfg : Config) (a : action) (w : World) :
  let m := secureStore w in
  let m' := secureStore (exec (step cfg a) w) in
  m' = m \/
  (exists t, t <> "" /\ m' = <["accessToken" := t]> m) \/
  m' = delete "accessToken" m.
Proof.
  intros m m'. subst m m'. destruct a; cbn [step].
  - left. unfold exec. rewrite loadToken_summary. reflexivity.
  - left. unfold_eff. reflexivity.
  - left. destruct (gateGuard w) eqn:G; unfold exec.
    + rewrite (gateEffect_fires o request w G). reflexivity.
    + rewrite (gateEffect_idle o request w G). reflexivity.
  - destruct (handleResponse_cells cfg o response discovery redirectUri
                request w) as (_ & _ & _ & [[_ E]|Hset]).
    + left. exact E.
    + destruct Hset as (tr & t & dn & gn & sn & _ & Ht & _ & E).
      right. left. exists t. split; [apply (truthy_some _ _ Ht)|exact E].
  - left. unfold_eff. oracle_cases; reflexivity.
  - unfold exec. rewrite signOut_summary. cbn [snd secureStore].
    destruct (deleteItem_rejects o); [left|right; right]; reflexivity.
Qed.

(** X16. The process owns one key of the secure store.  Along every run,
    from any state, every other key keeps its value; and if the value under
    "accessToken" was absent or non-empty at the start, it is absent or
    non-empty at the end: an empty token is never written. *)
Theorem store_is_one_key (cfg : Config) (acts : list action) (w : World) :
  (forall k, k <> "accessToken" ->
             secureStore (run cfg acts w) !! k = secureStore w !! k) /\
  (secureStore w !! "accessToken" <> Some "" ->
   secureStore (run cfg acts w) !! "accessToken" <> Some "").
Proof.
  revert w. induction acts as [|a rest IH]; intros w; cbn [run].
  - split; [reflexivity|exact (fun H => H)].
  - destruct (IH (exec (step cfg a) w)) as [Hother Htoken].
    pose proof (step_store cfg a w) as Hstep. cbn zeta in Hstep.
    split.
    + intros k Hk. rewrite (Hother k Hk).
      destruct Hstep as [E|[(t & _ & E)|E]]; rewrite E.
      * reflexivity.
      * apply lookup_insert_ne. congruence.
      * apply lookup_delete_ne. congruence.
    + intros Hw. apply Htoken.
      destruct Hstep as [E|[(t & Ht & E)|E]]; rewrite E.
      * exact Hw.
      * rewrite lookup_insert_eq. congruence.
      * rewrite lookup_delete_eq. discriminate.
Qed.

Lemma store_is_one_key_witness :
  secureStore
    (run Samples.cfg
       [LoadToken Samples.healthy;
        HandleResponse Samples.emptyToken (Some (Success "code"))
          (Some Samples.discovery) Samples.redirect (Some Samples.request);
        PressSignOut Samples.healthy]
       (initial Samples.storeAbc)) !! "accessToken" <> Some "".
Proof.
  apply store_is_one_key. vm_compute. discriminate.
Defined.

Lemma step_loading (cfg : Config) (a : action) (w : World) :
  loading (exec (step cfg a) w) = loading w && negb (isLoadToken a).
Proof.
  destruct a; cbn [step isLoadToken negb].
  - unfold exec. rewrite loadToken_summary. cbn. rewrite andb_false_r.
    reflexivity.
  - unfold_eff. cbn. rewrite andb_true_r. reflexivity.
  - rewrite andb_true_r. destruct (gateGuard w) eqn:G; unfold exec.
    + rewrite (gateEffect_fires o request w G). reflexivity.
    + rewrite (gateEffect_idle o request w G). reflexivity.
  - rewrite andb_true_r.
    apply (handleResponse_cells cfg o response discovery redirectUri request w).
  - rewrite andb_true_r. unfold_eff. oracle_cases; reflexivity.
  - rewrite andb_true_r. unfold exec. rewrite signOut_summary. reflexivity.
Qed.

(** X17. The gate shows "Checking session" exactly until the startup load
    has run: along every run from the start of the process, [loading] is
    still true if and only if no load effect has completed, and nothing ever
    sets it back. *)
Theorem loading_until_loaded (cfg : Config) (acts : list action) :
  (forall store,
     loading (run cfg acts (initial store)) = negb (existsb isLoadToken acts)) /\
  (forall w, loading w = false -> loading (run cfg acts w) = false) /\
  (forall store,
     existsb isLoadToken acts = false ->
     gateView (run cfg acts (initial store)) = CheckingSession).
Proof.
  assert (H : forall w,
             loading (run cfg acts w)
             = loading w && negb (existsb isLoadToken acts)).
  { induction acts as [|a rest IH]; intros w; cbn [run existsb].
    - rewrite andb_true_r. reflexivity.
    - rewrite IH, step_loading, negb_orb, andb_assoc. reflexivity. }
  split; [|split].
  - intros store. rewrite H. reflexivity.
  - intros w Hw. rewrite H, Hw. reflexivity.
  - intros store Hno. unfold gateView. rewrite H, Hno. reflexivity.
Qed.

Lemma loading_until_loaded_witness :
  gateView
    (run Samples.cfg
       [Render Samples.redirect;
        GateEffect Samples.healthy (Some Samples.request);
        PressSignIn Samples.healthy (Some Samples.request)]
       (initial Samples.storeAbc))
  = CheckingSession.
Proof.
  apply loading_until_loaded. reflexivity.
Defined.

(** X18. The startup load is idempotent: run a second time against the
    same platform, it leaves the session, the flags, the store and the view
    of the gate as the first run left them. *)
Theorem loadToken_idempotent (o : Oracle) (w : World) :
  let w1 := exec (loadToken o) w in
  let w2 := exec (loadToken o) w1 in
  authState w2 = authState w1 /\ loading w2 = loading w1 /\
  autoStarted w2 = autoStarted w1 /\ secureStore w2 = secureStore w1 /\
  gateView w2 = gateView w1.
Proof.
  intros w1 w2. subst w2 w1. unfold exec, gateView.
  rewrite !loadToken_summary.
  cbn [snd authState loading autoStarted secureStore].
  destruct (getItem_rejects o); [repeat split|].
  destruct (JS.truthy (secureStore w !! "accessToken")); repeat split.
Qed.

(** What one action adds to the number of prompts. *)
Lemma step_prompts (cfg : Config) (a : action) (w : World) :
  prompts (trace (exec (step cfg a) w))
  <= prompts (trace w)
     + match a with
       | GateEffect _ _ => if gateGuard w then 1 else 0
       | PressSignIn _ (Some _) => 1
       | _ => 0
       end.
Proof.
  destruct a; cbn [step].
  - unfold exec. rewrite loadToken_summary. cbn [snd trace].
    rewrite prompts_app. destruct (getItem_rejects o); cbn; lia.
  - unfold_eff. cbn [snd trace]. rewrite !prompts_app. cbn. lia.
  - destruct (gateGuard w) eqn:G; unfold exec.
    + rewrite (gateEffect_fires o request w G). cbn [snd trace].
      rewrite prompts_app.
      destruct request; [destruct (prompt_rejects o)|]; cbn; lia.
    + rewrite (gateEffect_idle o request w G). cbn [snd]. lia.
  - unfold_eff. oracle_cases; rewrite ?prompts_app; cbn; lia.
  - unfold_eff. destruct request; oracle_cases; rewrite ?prompts_app; cbn; lia.
  - unfold exec. rewrite signOut_summary. cbn [snd trace].
    rewrite prompts_app. cbn. lia.
Qed.

Lemma run_prompts (cfg : Config) (acts : list action) :
  forall w,
    prompts (trace (run cfg acts w))
    <= prompts (trace w) + readyPresses acts + autoSignIns cfg acts w.
Proof.
  induction acts as [|a rest IH]; intros w; [cbn; lia|].
  pose proof (IH (exec (step cfg a) w)) as Hrest.
  pose proof (step_prompts cfg a w) as Hstep.
  destruct a as [| | | | ? request|]; try destruct request;
    cbn [run readyPresses autoSignIns] in *;
    try destruct (gateGuard w); lia.
Qed.

(** X19. The sign-in prompt opens only on a press of "Sign in" that finds
    the request ready, or through the one automatic sign-in: along every run
    from the start of the process the number of prompts is at most the
    number of such presses plus one, and without such a press at most one. *)
Theorem prompts_bounded (cfg : Config) (acts : list action)
    (store : gmap string string) :
  prompts (trace (run cfg acts (initial store))) <= readyPresses acts + 1 /\
  (readyPresses acts = 0 ->
   prompts (trace (run cfg acts (initial store))) <= 1).
Proof.
  pose proof (run_prompts cfg acts (initial store)) as H.
  pose proof (autoSignIns_le cfg acts (initial store)) as Hle.
  cbn [trace initial prompts] in H. split; [lia|]. intros Hz. lia.
Qed.

Lemma prompts_bounded_witness :
  prompts
    (trace
       (run Samples.cfg
          [LoadToken Samples.healthy;
           GateEffect Samples.healthy (Some Samples.request);
           PressSignOut Samples.healthy;
           GateEffect Samples.healthy (Some Samples.request);
           GateEffect Samples.healthy (Some Samples.request)]
          (initial ∅))) <= 1.
Proof.
  apply prompts_bounded. reflexivity.
Defined.

Lemma string_length_app (a b : string) :
  String.length (a +:+ b) = String.length a + String.length b.
Proof.
  induction a as [|c a IH]; [reflexivity|].
  change (String c a +:+ b) with (String c (a +:+ b)).
  cbn [String.length]. rewrite IH. reflexivity.
Qed.

Lemma string_app_inv_tail (s : string) :
  forall t t', t +:+ s = t' +:+ s -> t = t'.
Proof.
  induction t as [|c t IH]; intros [|c' t'] E.
  - reflexivity.
  - apply (f_equal String.length) in E.
    change (String c' t' +:+ s) with (String c' (t' +:+ s)) in E.
    change ("" +:+ s) with s in E.
    cbn [String.length] in E. rewrite string_length_app in E. lia.
  - apply (f_equal String.length) in E.
    change (String c t +:+ s) with (String c (t +:+ s)) in E.
    change ("" +:+ s) with s in E.
    cbn [String.length] in E. rewrite string_length_app in E. lia.
  - change (String c t +:+ s) with (String c (t +:+ s)) in E.
    change (String c' t' +:+ s) with (String c' (t' +:+ s)) in E.
    injection E as -> E. f_equal. apply IH. exact E.
Qed.

(** X20. Discovery is asked at the placeholder issuer "undefined" exactly
    when the tenant identifier is absent or empty; otherwise the issuer is the
    Microsoft login URL for that tenant, and different tenants give different
    issuers. *)
Theorem issuer_of_tenant (cfg cfg' : Config) :
  (issuer cfg = "undefined" <->
   TENANT_ID cfg = None \/ TENANT_ID cfg = Some "") /\
  (forall t, TENANT_ID cfg = Some t -> t <> "" ->
             issuer cfg = "https://login.microsoftonline.com/" +:+ t +:+ "/v2.0") /\
  (forall t t', TENANT_ID cfg = Some t -> t <> "" ->
                TENANT_ID cfg' = Some t' -> t' <> "" ->
                issuer cfg = issuer cfg' -> t = t').
Proof.
  assert (Hurl : forall c t, TENANT_ID c = Some t -> t <> "" ->
                 issuer c = "https://login.microsoftonline.com/" +:+ t +:+ "/v2.0").
  { intros c t Ht Hne. unfold issuer. rewrite Ht, (truthy_present t Hne).
    reflexivity. }
  split; [|split].
  - split.
    + intros H. apply truthy_none.
      destruct (JS.truthy (TENANT_ID cfg)) as [t|] eqn:E; [|reflexivity].
      unfold issuer in H. rewrite E in H. discriminate.
    + intros H. apply truthy_none in H. unfold issuer. rewrite H. reflexivity.
  - apply Hurl.
  - intros t t' Ht Hne Ht' Hne' E.
    rewrite (Hurl cfg t Ht Hne), (Hurl cfg' t' Ht' Hne') in E.
    apply (inj (String.app _)) in E.
    apply (string_app_inv_tail "/v2.0" t t' E).
Qed.

Lemma issuer_of_tenant_witness :
  issuer Samples.cfg = "https://login.microsoftonline.com/contoso/v2.0".
Proof.
  destruct (issuer_of_tenant Samples.cfg Samples.cfg) as (_ & A & _).
  apply (A "contoso"); [reflexivity|discriminate].
Defined.

(** X22. A press of "Sign in" changes neither the session nor the flags
    nor the store, in particular not the one-shot flag.  While the request
    is not ready it opens no prompt and only logs a warning; once the request
    is ready it opens exactly one prompt, whether or not the automatic
    sign-in has already been used, and fails only if the prompt does. *)
Theorem signIn_press (o : Oracle) (request : option AuthRequest) (w : World) :
  let w' := exec (signIn o request) w in
  authState w' = authState w /\ loading w' = loading w /\
  autoStarted w' = autoStarted w /\ secureStore w' = secureStore w /\
  (request = None ->
   result (signIn o request) w = Ret tt /\
   trace w' = trace w ++ [ConsoleWarn "[Auth] Auth request not ready yet" None] /\
   prompts (trace w') = prompts (trace w)) /\
  (forall r, request = Some r ->
     result (signIn o request) w
       = (if prompt_rejects o then Throw JS.PromptError else Ret tt) /\
     trace w' = trace w ++ [PromptAsync] /\
     prompts (trace w') = prompts (trace w) + 1).
Proof.
  intros w'. subst w'. unfold_eff.
  destruct request as [r|];
    cbn [fst snd authState loading autoStarted secureStore trace].
  - destruct (prompt_rejects o);
      cbn [fst snd authState loading autoStarted secureStore trace];
      (repeat split; try discriminate; intros; rewrite ?prompts_app; reflexivity).
  - repeat split; try discriminate; intros; rewrite ?prompts_app; cbn; lia.
Qed.

Lemma signIn_press_witness :
  prompts
    (trace (exec (signIn Samples.healthy (Some Samples.request))
              (exec (gateEffect Samples.healthy (Some Samples.request))
                 Samples.signedOut))) = 2 /\
  prompts (trace (exec (signIn Samples.healthy None) Samples.signedOut)) = 0.
Proof.
  split.
  - destruct (signIn_press Samples.healthy (Some Samples.request)
                (exec (gateEffect Samples.healthy (Some Samples.request))
                   Samples.signedOut)) as (_ & _ & _ & _ & _ & A).
    destruct (A Samples.request eq_refl) as (_ & _ & B). exact B.
  - destruct (signIn_press Samples.healthy None Samples.signedOut)
      as (_ & _ & _ & _ & A & _).
    destruct (A eq_refl) as (_ & _ & B). exact B.
Defined.

End ProcessSpec.
